(** * DataThief: Twitter extraction functions and Kedro nodes

    A shallow embedding of [src/Twitter/functions.py] and
    [src/Twitter/kedro-nodes.py], followed by the properties of the
    extraction pipeline that were checked against it.

    Python values are modelled by small inductive types, exceptions by an
    error result, and the effects of the code (printing, building a
    [tweepy.Cursor], writing a column of the caller's DataFrame) by a
    state-and-error monad over an explicit [world]. *)

From Stdlib Require Import ZArith String Ascii List.
From stdpp Require Import base option list strings gmap fin_maps.
Import ListNotations.

Open Scope Z_scope.
Open Scope string_scope.
Open Scope list_scope.

(** ** Python values *)

(** A cell of an input DataFrame: a string, or one of the two missing
    markers pandas uses ([None] in an object column, [NaN] for a blank
    CSV field). *)
Inductive cell : Type :=
| CNone
| CNaN
| CStr (s : string).

(** An entry of one of the entity collections of a tweet; opaque. *)
Inductive entity : Type :=
| Entity (payload : string).

(** The values that occur in the positions of an extracted record. *)
Inductive value : Type :=
| VNone
| VNaN
| VStr (s : string)
| VInt (z : Z)
| VBool (b : bool)
| VTime (t : Z)
| VList (l : list entity).

Definition of_cell (c : cell) : value :=
  match c with
  | CNone => VNone
  | CNaN => VNaN
  | CStr s => VStr s
  end.

(** An attribute that holds a string or [None]. *)
Definition of_optstr (o : option string) : value :=
  match o with
  | None => VNone
  | Some s => VStr s
  end.

(** [f"{c}"]: how an f-string renders a cell. *)
Definition fmt (c : cell) : string :=
  match c with
  | CNone => "None"
  | CNaN => "nan"
  | CStr s => s
  end.

(** [pd.notna] on a scalar. *)
Definition notna (c : cell) : bool :=
  match c with
  | CNone | CNaN => false
  | CStr _ => true
  end.

(** ** Exceptions *)

Inductive exn : Type :=
| TweepyException (msg : string)
| TypeError (msg : string)
| AttributeError (msg : string)
| KeyError (msg : string)
| ValueError (msg : string)
| NameError (msg : string).

Inductive result (A : Type) : Type :=
| Ok (a : A)
| Raise (e : exn).
Arguments Ok {A} a.
Arguments Raise {A} e.

#[global] Instance result_ret : MRet result := fun _ a => Ok a.
#[global] Instance result_bind : MBind result := fun _ _ f r =>
  match r with
  | Ok a => f a
  | Raise e => Raise e
  end.

(** ** Raw items, as the remote API returns them *)

Record User : Type := mkUser {
  user_id_str : string;
  user_screen_name : string;
  user_verified : bool;
  followers_count : Z;
  friends_count : Z;
  location : option string;
  user_lang : option string
}.

Record Status : Type := mkStatus {
  id_str : string;
  created_at : Z;
  full_text : string;
  lang : option string;
  favorite_count : Z;
  retweet_count : Z;
  entities : gmap string (list entity);
  user : User
}.

(** [tweet.entities.get(key, [])] *)
Definition entities_get (tweet : Status) (key : string) : value :=
  VList (default [] (entities tweet !! key)).

(** [s + ''] where [s] is an attribute that may be [None]: string
    concatenation on a string, [TypeError] on [None]. *)
Definition NoneType_plus_str : exn :=
  TypeError "unsupported operand type(s) for +: 'NoneType' and 'str'".

Definition add_str (o : option string) (suffix : string) : result string :=
  match o with
  | Some s => Ok (s +:+ suffix)
  | None => Raise NoneType_plus_str
  end.

(** ** The remote API and its cursor *)

(** The keyword arguments a cursor is built from, per endpoint. *)
Inductive request : Type :=
| UserTimeline (screen_name : cell) (count : Z) (tweet_mode : string)
    (exclude_replies include_rts : bool)
| SearchTweets (q : cell) (lang : string) (tweet_mode result_type : string)
    (count : Z) (until : string).

(** What iterating a cursor produces: items, then the end of the
    results or an exception. *)
Inductive item_stream : Type :=
| EndOfItems
| Item (tweet : Status) (rest : item_stream)
| Broken (e : exn).

(** An authenticated client handle: for every request, the stream its
    cursor walks. *)
Record API : Type := mkAPI {
  remote : request -> item_stream;
  wait_on_rate_limit : bool
}.

(** Modelled from the spec: [tweepy.Cursor(...).items(limit)] is not part
    of the repository. The cursor yields the items of the remote stream
    in order and stops once [limit] items have been yielded, before
    asking for any further item. *)
Fixpoint take_items (limit : nat) (s : item_stream) : item_stream :=
  match limit with
  | O => EndOfItems
  | S n =>
      match s with
      | Item tweet rest => Item tweet (take_items n rest)
      | EndOfItems => EndOfItems
      | Broken e => Broken e
      end
  end.

Definition items (limit : Z) (s : item_stream) : item_stream :=
  take_items (Z.to_nat limit) s.

(** [pre] followed by [tail]. *)
Fixpoint stream_of (pre : list Status) (tail : item_stream) : item_stream :=
  match pre with
  | [] => tail
  | tweet :: pre' => Item tweet (stream_of pre' tail)
  end.

(** ** DataFrames *)

(** A DataFrame, column-wise: the number of rows and the ordered,
    named columns. *)
Record DataFrame (A : Type) : Type := mkDataFrame {
  nrows : nat;
  columns : list (string * list A)
}.
Arguments mkDataFrame {A} nrows columns.
Arguments nrows {A} d.
Arguments columns {A} d.

Fixpoint assoc {A} (k : string) (l : list (string * A)) : option A :=
  match l with
  | [] => None
  | (k', v) :: l' => if String.eqb k k' then Some v else assoc k l'
  end.

(** [l[k] = v] on an ordered mapping: overwrite in place, or append. *)
Fixpoint assoc_set {A} (k : string) (v : A) (l : list (string * A))
  : list (string * A) :=
  match l with
  | [] => [(k, v)]
  | (k', v') :: l' =>
      if String.eqb k k' then (k, v) :: l' else (k', v') :: assoc_set k v l'
  end.

(** [df[name]] *)
Definition df_col {A} (df : DataFrame A) (name : string) : result (list A) :=
  match assoc name (columns df) with
  | Some col => Ok col
  | None => Raise (KeyError name)
  end.

(** [df[name] = col] *)
Definition df_set_col {A} (name : string) (col : list A) (df : DataFrame A)
  : DataFrame A :=
  {| nrows := nrows df; columns := assoc_set name col (columns df) |}.

(** A row of [df.iterrows()]: its position in the frame. *)
Definition row_get (df : DataFrame cell) (index : nat) (name : string)
  : result cell :=
  col ← df_col df name; Ok (nth index col CNaN).

Definition iterrows {A} (df : DataFrame A) : list nat := seq 0 (nrows df).

(** An extracted record: a Python tuple. *)
Definition record : Type := list value.

(** [pd.DataFrame(data=records, columns=names)]: every record must have
    one field per column. *)
Definition new_DataFrame (data : list record) (names : list string)
  : result (DataFrame value) :=
  if forallb (fun r => Nat.eqb (length r) (length names)) data
  then Ok {| nrows := length data;
             columns := imap (fun i name => (name, map (fun r => nth i r VNone) data))
                             names |}
  else Raise (ValueError "columns passed do not match the passed data").

(** ** The world: caller-visible state *)

Definition loc : Type := positive.

(** An invocation of one of the four extraction functions, with the
    arguments the orchestrators choose. *)
Inductive call : Type :=
| TimelineCall (screen_name user_type : cell)
| RepliesCall (username : cell) (language : string)
| SearchCall (query : cell) (language : string)
| HashtagCall (hashtag : cell) (language : string).

(** What a run leaves behind, in order: a line printed, an extraction
    function entered, a cursor built from its keyword arguments. [Call]
    is bookkeeping the source does not have; it changes no result and
    lets the properties speak of which calls a node makes. *)
Inductive event : Type :=
| Stdout (line : string)
| Call (c : call)
| Cursor (r : request).

(** [heap] holds the DataFrames the caller passes by reference; [trace]
    records, in order, the lines printed, the extraction functions
    entered and the cursors built. *)
Record world : Type := mkWorld {
  heap : gmap loc (DataFrame cell);
  trace : list event
}.

Definition M (A : Type) : Type := world -> result A * world.

#[global] Instance M_ret : MRet M := fun _ a w => (Ok a, w).
#[global] Instance M_bind : MBind M := fun _ _ f m w =>
  match m w with
  | (Ok a, w') => f a w'
  | (Raise e, w') => (Raise e, w')
  end.

Definition lift {A} (r : result A) : M A := fun w => (r, w).

(** [w] after the events [evs]. *)
Definition logged (w : world) (evs : list event) : world :=
  {| heap := heap w; trace := trace w ++ evs |}.

Definition emit (ev : event) : M unit := fun w => (Ok tt, logged w [ev]).

Definition print (line : string) : M unit := emit (Stdout line).

Definition deref (l : loc) : M (DataFrame cell) := fun w =>
  match heap w !! l with
  | Some df => (Ok df, w)
  | None => (Raise (NameError "unbound DataFrame"), w)
  end.

Definition store (l : loc) (df : DataFrame cell) : M unit := fun w =>
  (Ok tt, {| heap := <[l := df]> (heap w); trace := trace w |}).

(** [try: body / except TweepyException as e: handler(e)]; any other
    exception passes through. *)
Definition try_except_TweepyException {A} (body : M A) (handler : string -> M A)
  : M A := fun w =>
  match body w with
  | (Raise (TweepyException msg), w') => handler msg w'
  | other => other
  end.

(** [for x in xs: acc = body(x, acc)] *)
Fixpoint for_each {A S} (body : A -> S -> M S) (xs : list A) (acc : S) : M S :=
  match xs with
  | [] => mret acc
  | x :: xs' => acc' ← body x acc; for_each body xs' acc'
  end.

(** [[f(tweet) for tweet in tweets]]: the next item is drawn, then its
    element is built, so whichever fails first raises. *)
Fixpoint comprehension (f : Status -> result record) (tweets : item_stream)
  : result (list record) :=
  match tweets with
  | EndOfItems => Ok []
  | Broken e => Raise e
  | Item tweet rest =>
      r ← f tweet; rs ← comprehension f rest; Ok (r :: rs)
  end.

(** [api.<name>] on the handle [get_auth] returned, which may be [None]. *)
Definition api_method (api : option API) (name : string)
  : result (request -> item_stream) :=
  match api with
  | Some a => Ok (remote a)
  | None =>
      Raise (AttributeError ("'NoneType' object has no attribute '" +:+ name +:+ "'"))
  end.

(** [tweepy.Cursor(method, **kwargs).items(extraction_size)] *)
Definition cursor_items (method : request -> item_stream) (r : request)
    (extraction_size : Z) : M item_stream :=
  emit (Cursor r);; mret (items extraction_size (method r)).

(** [s.replace(old, new)] for a one-character [old]. *)
Fixpoint str_replace (s : string) (old : ascii) (new : string) : string :=
  match s with
  | EmptyString => EmptyString
  | String c s' =>
      if Ascii.eqb c old then new +:+ str_replace s' old new
      else String c (str_replace s' old new)
  end.

(** [hashtag.replace('#', '')] on a cell: only strings have the method. *)
Definition cell_replace (c : cell) (old : ascii) (new : string) : result cell :=
  match c with
  | CStr s => Ok (CStr (str_replace s old new))
  | CNone => Raise (AttributeError "'NoneType' object has no attribute 'replace'")
  | CNaN => Raise (AttributeError "'float' object has no attribute 'replace'")
  end.

(** [series.apply(f)] *)
Fixpoint apply {A B} (f : A -> result B) (series : list A) : result (list B) :=
  match series with
  | [] => Ok []
  | x :: series' => y ← f x; ys ← apply f series'; Ok (y :: ys)
  end.

(** [if tweets is not None and len(tweets) > 0: acc.extend(tweets)] *)
Definition extend_if_any (acc : list record) (tweets : option (list record))
  : list record :=
  match tweets with
  | Some l => if (0 <? length l)%nat then acc ++ l else acc
  | None => acc
  end.

(** ** tweepy's authentication objects *)

Record OAuth : Type := mkOAuth {
  consumer_key : option string;
  consumer_secret : option string;
  access_token : option string;
  access_token_secret : option string
}.

(** The three tweepy operations [get_auth] performs; the library is
    outside the repository, so each is a parameter that returns or
    raises. *)
Record Tweepy : Type := mkTweepy {
  tweepy_OAuthHandler : option string -> option string -> result OAuth;
  tweepy_set_access_token : OAuth -> option string -> option string -> result OAuth;
  tweepy_API : OAuth -> bool -> result API
}.

(** ** functions.py *)

Section Functions.

Variable tweepy : Tweepy.

Definition get_auth (consumer_key consumer_secret access_token
                     access_token_secret : option string) : M (option API) :=
  try_except_TweepyException
    (auth ← lift (tweepy_OAuthHandler tweepy consumer_key consumer_secret);
     auth ← lift (tweepy_set_access_token tweepy auth access_token access_token_secret);
     print "Successfully authenticated with the Twitter API";;
     api ← lift (tweepy_API tweepy auth true);
     mret (Some api))
    (fun e =>
     print "Error authenticating with Twitter API";;
     print e;;
     mret None).

Definition timeline_tuple (screen_name user_type : cell) (tweet : Status)
  : result record :=
  place ← add_str (location (user tweet)) "";
  Ok [of_cell screen_name; of_cell user_type; VStr (id_str tweet);
      VTime (created_at tweet); VStr (full_text tweet);
      VInt (favorite_count tweet); VInt (retweet_count tweet);
      entities_get tweet "urls"; entities_get tweet "media";
      entities_get tweet "hashtags";
      VStr (user_id_str (user tweet)); VStr (user_screen_name (user tweet));
      VBool (user_verified (user tweet)); VInt (followers_count (user tweet));
      VInt (friends_count (user tweet)); VStr place].

Definition extract_tweets_from_user_timeline (api : option API)
    (screen_name user_type : cell) (count : Z) (tweet_mode : string)
    (exclude_replies include_rts : bool) (extraction_size : Z)
  : M (option (list record)) :=
  emit (Call (TimelineCall screen_name user_type));;
  print ("Extracting username: " +:+ fmt screen_name);;
  try_except_TweepyException
    (method ← lift (api_method api "user_timeline");
     tweets ← cursor_items method
       (UserTimeline screen_name count tweet_mode exclude_replies include_rts)
       extraction_size;
     rows ← lift (comprehension (timeline_tuple screen_name user_type) tweets);
     mret (Some rows))
    (fun e =>
     print "Error extracting tweets from user timeline";;
     print e;;
     mret None).

(** The tuple the three search-based functions build; [key] is its
    first field. *)
Definition search_tuple (key : value) (language : string) (tweet : Status)
  : result record :=
  place ← add_str (location (user tweet)) "";
  Ok [key; VStr language; VStr (id_str tweet);
      VTime (created_at tweet); VStr (full_text tweet);
      of_optstr (user_lang (user tweet));
      VInt (favorite_count tweet); VInt (retweet_count tweet);
      entities_get tweet "urls"; entities_get tweet "media";
      entities_get tweet "hashtags";
      VStr (user_id_str (user tweet)); VStr (user_screen_name (user tweet));
      VBool (user_verified (user tweet)); VInt (followers_count (user tweet));
      VInt (friends_count (user tweet)); VStr place].

Definition extract_replies_to_user (api : option API) (username : cell)
    (count : Z) (tweet_mode language result_type until : string)
    (extraction_size : Z) : M (option (list record)) :=
  emit (Call (RepliesCall username language));;
  print ("Extracting replies to username: " +:+ fmt username);;
  try_except_TweepyException
    (method ← lift (api_method api "search_tweets");
     tweets ← cursor_items method
       (SearchTweets (CStr ("to:" +:+ fmt username)) language tweet_mode
          result_type count until)
       extraction_size;
     rows ← lift (comprehension (search_tuple (of_cell username) language) tweets);
     mret (Some rows))
    (fun e =>
     print "Error extracting search query tweets";;
     print e;;
     mret None).

Definition extract_tweets_from_search (api : option API) (query : cell)
    (count : Z) (tweet_mode language result_type until : string)
    (extraction_size : Z) : M (option (list record)) :=
  emit (Call (SearchCall query language));;
  print ("Extracting search for: " +:+ fmt query);;
  try_except_TweepyException
    (method ← lift (api_method api "search_tweets");
     tweets ← cursor_items method
       (SearchTweets query language tweet_mode result_type count until)
       extraction_size;
     rows ← lift (comprehension (search_tuple (of_cell query) language) tweets);
     mret (Some rows))
    (fun e =>
     print "Error extracting search query tweets";;
     print e;;
     mret None).

Definition extract_tweets_from_hashtag (api : option API) (hashtag : cell)
    (count : Z) (tweet_mode language result_type until : string)
    (extraction_size : Z) : M (option (list record)) :=
  emit (Call (HashtagCall hashtag language));;
  print ("Extracting hashtag: " +:+ fmt hashtag);;
  try_except_TweepyException
    (method ← lift (api_method api "search_tweets");
     tweets ← cursor_items method
       (SearchTweets (CStr ("#" +:+ fmt hashtag)) language tweet_mode
          result_type count until)
       extraction_size;
     rows ← lift (comprehension
                    (search_tuple (VStr ("#" +:+ fmt hashtag)) language) tweets);
     mret (Some rows))
    (fun e =>
     print "Error extracting tweets from hashtag";;
     print e;;
     mret None).

End Functions.

(** ** kedro-nodes.py *)

Definition timeline_columns : list string :=
  ["extracted_user"; "type"; "id"; "created_at"; "text"; "likes";
   "retweets"; "urls"; "medias"; "hashtags"; "user_id"; "user_screen_name";
   "user_verified"; "user_followers"; "user_following"; "location"].

(** The sixteen columns that follow the mode key in the three
    search-based tables. *)
Definition search_columns_tail : list string :=
  ["requested_language"; "id"; "created_at"; "text"; "language";
   "likes"; "retweets"; "urls"; "medias"; "hashtags"; "user_id";
   "user_screen_name"; "user_verified"; "user_followers"; "user_following";
   "location"].

Definition replies_columns : list string := "extracted_user" :: search_columns_tail.
Definition search_users_columns : list string := "searched_user" :: search_columns_tail.
Definition hashtags_columns : list string := "hashtag" :: search_columns_tail.
Definition queries_columns : list string := "search_query" :: search_columns_tail.

Section Nodes.

Variable tweepy : Tweepy.

(** [datetime.now().strftime("%Y-%m-%d")], evaluated once when
    functions.py is imported: the default of every [until] argument. *)
Variable today : string.

Definition auth_from_params (params : gmap string string) : M (option API) :=
  get_auth tweepy
    (params !! "twitter_api_consumer_key")
    (params !! "twitter_api_consumer_secret")
    (params !! "twitter_api_access_token")
    (params !! "twitter_api_access_secret").

(** The body of the loop of [extract_user_timelines], for the row at
    [index] of [df]; [users_tweets] is the list built so far. *)
Definition user_timelines_row (api : option API) (df : DataFrame cell)
    (index : nat) (users_tweets : list record) : M (list record) :=
  key ← lift (row_get df index "username_twitter");
  if notna key then
    screen_name ← lift (row_get df index "username_twitter");
    user_type ← lift (row_get df index "type");
    user_tweets ← extract_tweets_from_user_timeline api screen_name
                    user_type 200 "extended" false false 10000;
    mret (extend_if_any users_tweets user_tweets)
  else mret users_tweets.

Definition extract_user_timelines (data : loc) (params : gmap string string)
  : M (DataFrame value) :=
  print "Starting extraction of User Timelines";;
  api ← auth_from_params params;
  df ← deref data;
  users_tweets ← for_each (user_timelines_row api df) (iterrows df) [];
  lift (new_DataFrame users_tweets timeline_columns).

Definition replies_to_users_row (api : option API) (df : DataFrame cell)
    (index : nat) (replies_to_users : list record) : M (list record) :=
  key ← lift (row_get df index "username_twitter");
  if notna key then
    username ← lift (row_get df index "username_twitter");
    replies_to_user_en ← extract_replies_to_user api username
                           200 "extended" "en" "mixed" today 10000;
    username ← lift (row_get df index "username_twitter");
    replies_to_user_es ← extract_replies_to_user api username
                           200 "extended" "es" "mixed" today 10000;
    mret (extend_if_any (extend_if_any replies_to_users replies_to_user_en)
            replies_to_user_es)
  else mret replies_to_users.

Definition extract_replies_to_users (data : loc) (params : gmap string string)
  : M (DataFrame value) :=
  print "Starting extraction of Replies to Users";;
  api ← auth_from_params params;
  df ← deref data;
  replies_to_users ← for_each (replies_to_users_row api df) (iterrows df) [];
  lift (new_DataFrame replies_to_users replies_columns).

Definition search_users_row (api : option API) (df : DataFrame cell)
    (index : nat) (tweets_in_search_users : list record) : M (list record) :=
  key ← lift (row_get df index "username_twitter");
  if notna key then
    query ← lift (row_get df index "username_twitter");
    search_user_en ← extract_tweets_from_search api query
                       200 "extended" "en" "mixed" today 10000;
    query ← lift (row_get df index "username_twitter");
    search_user_es ← extract_tweets_from_search api query
                       200 "extended" "es" "mixed" today 10000;
    mret (extend_if_any (extend_if_any tweets_in_search_users search_user_en)
            search_user_es)
  else mret tweets_in_search_users.

Definition extract_search_users (data : loc) (params : gmap string string)
  : M (DataFrame value) :=
  print "Starting extraction of Search Users";;
  api ← auth_from_params params;
  df ← deref data;
  tweets_in_search_users ← for_each (search_users_row api df) (iterrows df) [];
  lift (new_DataFrame tweets_in_search_users search_users_columns).

Definition hashtags_row (api : option API) (df : DataFrame cell)
    (index : nat) (tweets_in_hashtags : list record) : M (list record) :=
  key ← lift (row_get df index "text");
  if notna key then
    hashtag ← lift (row_get df index "text");
    hashtag_tweets_en ← extract_tweets_from_hashtag api hashtag
                          200 "extended" "en" "mixed" today 10000;
    hashtag ← lift (row_get df index "text");
    hashtag_tweets_es ← extract_tweets_from_hashtag api hashtag
                          200 "extended" "es" "mixed" today 10000;
    mret (extend_if_any (extend_if_any tweets_in_hashtags hashtag_tweets_en)
            hashtag_tweets_es)
  else mret tweets_in_hashtags.

(** [hashtags = data] binds a second name to the caller's DataFrame;
    the assignment to [hashtags['text']] writes into that object. *)
Definition extract_tweets_from_hashtags (data : loc) (params : gmap string string)
  : M (DataFrame value) :=
  print "Starting extraction of Hashtags";;
  api ← auth_from_params params;
  let hashtags := data in
  df ← deref data;
  series ← lift (df_col df "hashtag");
  text ← lift (apply (fun hashtag => cell_replace hashtag "#"%char "") series);
  target ← deref hashtags;
  store hashtags (df_set_col "text" text target);;
  df ← deref hashtags;
  tweets_in_hashtags ← for_each (hashtags_row api df) (iterrows df) [];
  lift (new_DataFrame tweets_in_hashtags hashtags_columns).

(** No test of the key here, and both requests ask for [en]. *)
Definition queries_row (api : option API) (df : DataFrame cell)
    (index : nat) (tweets_in_queries : list record) : M (list record) :=
  query ← lift (row_get df index "query");
  tweets_in_query_en ← extract_tweets_from_search api query
                         200 "extended" "en" "mixed" today 10000;
  query ← lift (row_get df index "query");
  tweets_in_query_es ← extract_tweets_from_search api query
                         200 "extended" "en" "mixed" today 10000;
  mret (extend_if_any (extend_if_any tweets_in_queries tweets_in_query_en)
          tweets_in_query_es).

Definition extract_tweets_from_queries (data : loc) (params : gmap string string)
  : M (DataFrame value) :=
  print "Starting extraction of Search Queries";;
  api ← auth_from_params params;
  df ← deref data;
  tweets_in_queries ← for_each (queries_row api df) (iterrows df) [];
  lift (new_DataFrame tweets_in_queries queries_columns).

End Nodes.

(** ** The four extraction modes as one request type *)

(** The spec's extraction request: which function is called and with
    which mode-specific arguments. *)
Inductive mode : Type :=
| Timeline (screen_name user_type : cell) (exclude_replies include_rts : bool)
| Replies (username : cell) (language result_type until : string)
| Search (query : cell) (language result_type until : string)
| Hashtag (hashtag : cell) (language result_type until : string).

Definition extract (api : option API) (m : mode) (count : Z)
    (tweet_mode : string) (extraction_size : Z) : M (option (list record)) :=
  match m with
  | Timeline screen_name user_type exclude_replies include_rts =>
      extract_tweets_from_user_timeline api screen_name user_type count
        tweet_mode exclude_replies include_rts extraction_size
  | Replies username language result_type until =>
      extract_replies_to_user api username count tweet_mode language
        result_type until extraction_size
  | Search query language result_type until =>
      extract_tweets_from_search api query count tweet_mode language
        result_type until extraction_size
  | Hashtag hashtag language result_type until =>
      extract_tweets_from_hashtag api hashtag count tweet_mode language
        result_type until extraction_size
  end.

(** What a run of [extract] is made of, mode by mode. *)
Definition call_of (m : mode) : call :=
  match m with
  | Timeline screen_name user_type _ _ => TimelineCall screen_name user_type
  | Replies username language _ _ => RepliesCall username language
  | Search query language _ _ => SearchCall query language
  | Hashtag hashtag language _ _ => HashtagCall hashtag language
  end.

Definition banner (m : mode) : string :=
  match m with
  | Timeline screen_name _ _ _ => "Extracting username: " +:+ fmt screen_name
  | Replies username _ _ _ => "Extracting replies to username: " +:+ fmt username
  | Search query _ _ _ => "Extracting search for: " +:+ fmt query
  | Hashtag hashtag _ _ _ => "Extracting hashtag: " +:+ fmt hashtag
  end.

Definition request_of (m : mode) (count : Z) (tweet_mode : string) : request :=
  match m with
  | Timeline screen_name _ exclude_replies include_rts =>
      UserTimeline screen_name count tweet_mode exclude_replies include_rts
  | Replies username language result_type until =>
      SearchTweets (CStr ("to:" +:+ fmt username)) language tweet_mode
        result_type count until
  | Search query language result_type until =>
      SearchTweets query language tweet_mode result_type count until
  | Hashtag hashtag language result_type until =>
      SearchTweets (CStr ("#" +:+ fmt hashtag)) language tweet_mode
        result_type count until
  end.

Definition tuple_of (m : mode) : Status -> result record :=
  match m with
  | Timeline screen_name user_type _ _ => timeline_tuple screen_name user_type
  | Replies username language _ _ => search_tuple (of_cell username) language
  | Search query language _ _ => search_tuple (of_cell query) language
  | Hashtag hashtag language _ _ =>
      search_tuple (VStr ("#" +:+ fmt hashtag)) language
  end.

Definition error_line (m : mode) : string :=
  match m with
  | Timeline _ _ _ _ => "Error extracting tweets from user timeline"
  | Replies _ _ _ _ => "Error extracting search query tweets"
  | Search _ _ _ _ => "Error extracting search query tweets"
  | Hashtag _ _ _ _ => "Error extracting tweets from hashtag"
  end.

Definition method_name (m : mode) : string :=
  match m with
  | Timeline _ _ _ _ => "user_timeline"
  | _ => "search_tweets"
  end.

(** The events every run starts with once a cursor is built. *)
Definition prologue (m : mode) (count : Z) (tweet_mode : string) : list event :=
  [Call (call_of m); Stdout (banner m); Cursor (request_of m count tweet_mode)].

(** The tweets a cursor hands to the comprehension. *)
Definition fetched (a : API) (m : mode) (count : Z) (tweet_mode : string)
    (extraction_size : Z) : item_stream :=
  items extraction_size (remote a (request_of m count tweet_mode)).

(** A raw item whose author has a location string. *)
Definition located (tweet : Status) : Prop := is_Some (location (user tweet)).

(** ** The five Kedro nodes as one type *)

Inductive node : Type :=
| Timelines
| RepliesToUsers
| SearchUsers
| Hashtags
| Queries.

Definition run_node (tweepy : Tweepy) (today : string) (nd : node)
  : loc -> gmap string string -> M (DataFrame value) :=
  match nd with
  | Timelines => extract_user_timelines tweepy
  | RepliesToUsers => extract_replies_to_users tweepy today
  | SearchUsers => extract_search_users tweepy today
  | Hashtags => extract_tweets_from_hashtags tweepy today
  | Queries => extract_tweets_from_queries tweepy today
  end.

(** The columns a node declares for its table. *)
Definition node_columns (nd : node) : list string :=
  match nd with
  | Timelines => timeline_columns
  | RepliesToUsers => replies_columns
  | SearchUsers => search_users_columns
  | Hashtags => hashtags_columns
  | Queries => queries_columns
  end.

(** The extraction mode a node calls. *)
Definition node_serves (nd : node) (m : mode) : Prop :=
  match nd, m with
  | Timelines, Timeline _ _ _ _ => True
  | RepliesToUsers, Replies _ _ _ _ => True
  | SearchUsers, Search _ _ _ _ => True
  | Queries, Search _ _ _ _ => True
  | Hashtags, Hashtag _ _ _ _ => True
  | _, _ => False
  end.

(** ** The declared schema, column by column *)

(** The mode key: the first field of a record. *)
Definition mode_key (m : mode) : value :=
  match m with
  | Timeline screen_name _ _ _ => of_cell screen_name
  | Replies username _ _ _ => of_cell username
  | Search query _ _ _ => of_cell query
  | Hashtag hashtag _ _ _ => VStr ("#" +:+ fmt hashtag)
  end.

(** The second field: the user's type for timelines, the requested
    language for the search-based modes. *)
Definition mode_second (m : mode) : value :=
  match m with
  | Timeline _ user_type _ _ => of_cell user_type
  | Replies _ language _ _ => VStr language
  | Search _ language _ _ => VStr language
  | Hashtag _ language _ _ => VStr language
  end.

Definition post_fields (tweet : Status) : list (string * value) :=
  [("id", VStr (id_str tweet));
   ("created_at", VTime (created_at tweet));
   ("text", VStr (full_text tweet))].

Definition engagement_and_author_fields (tweet : Status) (place : string)
  : list (string * value) :=
  [("likes", VInt (favorite_count tweet));
   ("retweets", VInt (retweet_count tweet));
   ("urls", entities_get tweet "urls");
   ("medias", entities_get tweet "media");
   ("hashtags", entities_get tweet "hashtags");
   ("user_id", VStr (user_id_str (user tweet)));
   ("user_screen_name", VStr (user_screen_name (user tweet)));
   ("user_verified", VBool (user_verified (user tweet)));
   ("user_followers", VInt (followers_count (user tweet)));
   ("user_following", VInt (friends_count (user tweet)));
   ("location", VStr place)].

(** The record the output schema describes for the item [tweet], as
    named fields in the declared order. [language] is the value of the
    language column; the extraction functions put the author's profile
    language, [of_optstr (user_lang (user tweet))], there. *)
Definition named_record (nd : node) (m : mode) (language : value)
    (tweet : Status) (place : string) : list (string * value) :=
  match nd with
  | Timelines =>
      [("extracted_user", mode_key m); ("type", mode_second m)]
      ++ post_fields tweet ++ engagement_and_author_fields tweet place
  | RepliesToUsers =>
      [("extracted_user", mode_key m); ("requested_language", mode_second m)]
      ++ post_fields tweet ++ [("language", language)]
      ++ engagement_and_author_fields tweet place
  | SearchUsers =>
      [("searched_user", mode_key m); ("requested_language", mode_second m)]
      ++ post_fields tweet ++ [("language", language)]
      ++ engagement_and_author_fields tweet place
  | Hashtags =>
      [("hashtag", mode_key m); ("requested_language", mode_second m)]
      ++ post_fields tweet ++ [("language", language)]
      ++ engagement_and_author_fields tweet place
  | Queries =>
      [("search_query", mode_key m); ("requested_language", mode_second m)]
      ++ post_fields tweet ++ [("language", language)]
      ++ engagement_and_author_fields tweet place
  end.

(** The field of a record under a column name. *)
Definition field (columns : list string) (r : record) (name : string)
  : option value :=
  assoc name (combine columns r).

(** ** Specifications of monadic code *)

(** From a world satisfying [P], [m] either returns a value and a world
    related by [Q], or raises an exception in a world satisfying [E]. *)
Definition hoare {A} (P : world -> Prop) (m : M A)
    (Q : A -> world -> Prop) (E : exn -> world -> Prop) : Prop :=
  forall w, P w ->
    match m w with
    | (Ok a, w') => Q a w'
    | (Raise e, w') => E e w'
    end.

(** The extraction functions entered, in order. *)
Definition calls_of (evs : list event) : list call :=
  omap (fun ev => match ev with Call c => Some c | _ => None end) evs.

(** [m] leaves the DataFrames alone, whether it returns or raises. *)
Definition keeps_heap {A} (m : M A) : Prop :=
  forall w, heap (snd (m w)) = heap w.

(** The body of the loop of a node. *)
Definition node_row (today : string) (nd : node)
  : option API -> DataFrame cell -> nat -> list record -> M (list record) :=
  match nd with
  | Timelines => user_timelines_row
  | RepliesToUsers => replies_to_users_row today
  | SearchUsers => search_users_row today
  | Hashtags => hashtags_row today
  | Queries => queries_row today
  end.

(** ** The calls a table asks for *)

(** The cell of column [name] in the row at [index]. *)
Definition row_key (df : DataFrame cell) (name : string) (index : nat) : cell :=
  match row_get df index name with
  | Ok c => c
  | Raise _ => CNaN
  end.

(** The extraction calls the spec asks of a node for one row: none when
    the key is missing; otherwise one call for a timeline, and for the
    dual-language nodes one call per language, [en] then [es]. *)
Definition specified_row_calls (nd : node) (key second : cell) : list call :=
  if notna key then
    match nd with
    | Timelines => [TimelineCall key second]
    | RepliesToUsers => [RepliesCall key "en"; RepliesCall key "es"]
    | SearchUsers => [SearchCall key "en"; SearchCall key "es"]
    | Hashtags => [HashtagCall key "en"; HashtagCall key "es"]
    | Queries => [SearchCall key "en"; SearchCall key "es"]
    end
  else [].

(** The column a node reads its key from. *)
Definition key_column (nd : node) : string :=
  match nd with
  | Timelines | RepliesToUsers | SearchUsers => "username_twitter"
  | Hashtags => "hashtag"
  | Queries => "query"
  end.

(** All the calls the spec asks of a node for the table [df]. *)
Definition specified_calls (nd : node) (df : DataFrame cell) : list call :=
  flat_map (fun index =>
              specified_row_calls nd (row_key df (key_column nd) index)
                (row_key df "type" index))
           (iterrows df).

(** What a loop body must do for the node built around it to make the
    calls [f] lists row by row. *)
Definition row_makes_calls (body : nat -> list record -> M (list record))
    (f : nat -> list call) : Prop :=
  forall index acc w,
    match body index acc w with
    | (Ok _, w') =>
        heap w' = heap w /\ calls_of (trace w') = calls_of (trace w) ++ f index
    | (Raise _, _) => True
    end.

(** [m] lets no Tweepy error out. *)
Definition contains_Tweepy_errors {A} (m : M A) : Prop :=
  forall w msg, fst (m w) <> Raise (TweepyException msg).

(** ** Authentication outcomes *)

(** The steps of [get_auth] in which tweepy can refuse: building the
    handler, setting the access token, building the handle. [auth_fails]
    holds when the first step that does not succeed raises a Tweepy
    error with message [msg]. *)
Definition auth_fails (tweepy : Tweepy)
    (key secret token token_secret : option string) (msg : string) : Prop :=
  match tweepy_OAuthHandler tweepy key secret with
  | Raise e => e = TweepyException msg
  | Ok auth =>
      match tweepy_set_access_token tweepy auth token token_secret with
      | Raise e => e = TweepyException msg
      | Ok auth' => tweepy_API tweepy auth' true = Raise (TweepyException msg)
      end
  end.

(** All three steps succeed and yield the handle [api]. *)
Definition auth_succeeds (tweepy : Tweepy)
    (key secret token token_secret : option string) (api : API) : Prop :=
  exists auth auth',
    tweepy_OAuthHandler tweepy key secret = Ok auth /\
    tweepy_set_access_token tweepy auth token token_secret = Ok auth' /\
    tweepy_API tweepy auth' true = Ok api.

(** The first step of [get_auth] that does not succeed raises [e],
    whatever kind of exception [e] is. *)
Definition auth_raises (tweepy : Tweepy)
    (key secret token token_secret : option string) (e : exn) : Prop :=
  match tweepy_OAuthHandler tweepy key secret with
  | Raise e' => e' = e
  | Ok auth =>
      match tweepy_set_access_token tweepy auth token token_secret with
      | Raise e' => e' = e
      | Ok auth' => tweepy_API tweepy auth' true = Raise e
      end
  end.

(** tweepy as the library is (version 4, the one that has
    [tweepy.errors]): none of the three steps [get_auth] takes sends
    anything to Twitter. [OAuthHandler] keeps the consumer key and
    secret, which must be strings; [set_access_token] keeps the token
    and its secret; [API] keeps the handler and the flag. [service] is
    what Twitter answers to a request signed with given credentials; it
    is consulted only when a cursor is iterated. *)
Definition tweepy_library (service : OAuth -> request -> item_stream) : Tweepy :=
  mkTweepy
    (fun key secret =>
       match key, secret with
       | None, _ =>
           Raise (TypeError "Consumer key must be string or bytes, not NoneType")
       | Some _, None =>
           Raise (TypeError "Consumer secret must be string or bytes, not NoneType")
       | Some _, Some _ => Ok (mkOAuth key secret None None)
       end)
    (fun auth token secret =>
       Ok (mkOAuth (consumer_key auth) (consumer_secret auth) token secret))
    (fun auth wait => Ok (mkAPI (service auth) wait)).

(** The contract [ClientHandle | AuthError] asks that a failed
    authentication shows as an error. [get_auth] can return [None] or a
    handle, neither of which is an error value, so in this model an
    error shows only as a raised exception. *)
Definition signals_AuthError (r : result (option API)) : Prop :=
  match r with
  | Raise _ => True
  | Ok _ => False
  end.

(** ** What the calls of a node bring back *)


(** The arguments the nodes fix when they make a call: no replies or
    retweets excluded or included beyond the defaults, [mixed] results,
    [until] left at the day functions.py was imported. *)
Definition mode_of_call (today : string) (c : call) : mode :=
  match c with
  | TimelineCall screen_name user_type => Timeline screen_name user_type false false
  | RepliesCall username language => Replies username language "mixed" today
  | SearchCall query language => Search query language "mixed" today
  | HashtagCall hashtag language => Hashtag hashtag language "mixed" today
  end.




(** The calls the code makes for one row: as specified, except in the
    query node. *)
Definition row_calls (nd : node) (key second : cell) : list call :=
  match nd with
  | Queries => [SearchCall key "en"; SearchCall key "en"]
  | _ => specified_row_calls nd key second
  end.

(** The column of the frame the loop of a node reads its key from: the
    hashtag node loops over the [text] column it has just written. *)
Definition loop_key_column (nd : node) : string :=
  match nd with
  | Hashtags => "text"
  | _ => key_column nd
  end.

(** All the calls the loop of a node makes over the frame [df]. *)
Definition loop_calls (nd : node) (df : DataFrame cell) : list call :=
  flat_map (fun index =>
              row_calls nd (row_key df (loop_key_column nd) index)
                (row_key df "type" index))
           (iterrows df).

(** The columns the loop of a node reads are there. *)
Definition has_columns (nd : node) (df : DataFrame cell) : Prop :=
  (exists column, df_col df (loop_key_column nd) = Ok column) /\
  (nd = Timelines -> exists column, df_col df "type" = Ok column).

(** The frame the hashtag node loops over. *)
Definition with_text (df : DataFrame cell) (tags : list string) : DataFrame cell :=
  df_set_col "text" (map (fun tag => CStr (str_replace tag "#"%char "")) tags) df.

(** The line a node prints first. *)
Definition node_banner (nd : node) : string :=
  match nd with
  | Timelines => "Starting extraction of User Timelines"
  | RepliesToUsers => "Starting extraction of Replies to Users"
  | SearchUsers => "Starting extraction of Search Users"
  | Hashtags => "Starting extraction of Hashtags"
  | Queries => "Starting extraction of Search Queries"
  end.

(** What a node does to the table it is given before it loops: the
    hashtag node reads the [hashtag] column, strips the markers and
    writes the [text] column; the others take the table as it is. The
    exception is the one the node raises when this fails. *)
Definition loop_frame (nd : node) (df : DataFrame cell) : result (DataFrame cell) :=
  match nd with
  | Hashtags =>
      series ← df_col df "hashtag";
      text ← apply (fun hashtag => cell_replace hashtag "#"%char "") series;
      Ok (df_set_col "text" text df)
  | _ => Ok df
  end.

(** The heap a node leaves when it loops over [df']. *)
Definition heap_after (nd : node) (data : loc) (df' : DataFrame cell)
    (h : gmap loc (DataFrame cell)) : gmap loc (DataFrame cell) :=
  match nd with
  | Hashtags => <[data := df']> h
  | _ => h
  end.

(** The loop of a node and the table built from what it gathered. *)
Definition loop_and_table (today : string) (nd : node) (api : option API)
    (df' : DataFrame cell) : M (DataFrame value) :=
  acc ← for_each (node_row today nd api df') (iterrows df') [];
  lift (new_DataFrame acc (node_columns nd)).


(** ** Test doubles *)

Module Stub.

Definition bob : User :=
  mkUser "42" "bob" false 10 20 (Some "Lima") (Some "en").

Definition eve : User :=
  mkUser "43" "eve" true 1 2 None None.

(** A Spanish post by an author whose profile language is English. *)
Definition hola : Status :=
  mkStatus "1001" 1700000000 "hola" (Some "es") 3 4
    (<["urls" := [Entity "https://t.co/x"]]> ∅) bob.

(** A post whose author has no location. *)
Definition nowhere : Status :=
  mkStatus "1002" 1700000060 "hi" (Some "en") 0 0 ∅ eve.

(** A handle that answers every request with the same stream. *)
Definition api_const (s : item_stream) : API := mkAPI (fun _ => s) true.

Definition boom : exn := TweepyException "boom".

(** tweepy when every step succeeds; the handle answers with [s]. *)
Definition tweepy_ok (s : item_stream) : Tweepy :=
  mkTweepy
    (fun key secret => Ok (mkOAuth key secret None None))
    (fun auth token secret =>
       Ok (mkOAuth (consumer_key auth) (consumer_secret auth) token secret))
    (fun _ wait => Ok (mkAPI (fun _ => s) wait)).

(** A tweepy whose handler cannot be built: the Tweepy error that the
    handler of [get_auth] is written for. *)
Definition tweepy_refused : Tweepy :=
  mkTweepy
    (fun _ _ => Raise (TweepyException "Unauthorized"))
    (fun auth token secret =>
       Ok (mkOAuth (consumer_key auth) (consumer_secret auth) token secret))
    (fun _ wait => Ok (mkAPI (fun _ => EndOfItems) wait)).

Definition w0 : world := mkWorld ∅ [].

(** A world whose only DataFrame, at location 1, is [df]. *)
Definition world_of (df : DataFrame cell) : world :=
  mkWorld {[ 1%positive := df ]} [].

Definition users : DataFrame cell :=
  mkDataFrame 2 [("username_twitter", [CStr "alice"; CNone]);
                 ("type", [CStr "customer"; CStr "competitor"])].

Definition one_query : DataFrame cell :=
  mkDataFrame 1 [("query", [CStr "rocq"])].

Definition missing_query : DataFrame cell :=
  mkDataFrame 1 [("query", [CNone])].

Definition tags : DataFrame cell :=
  mkDataFrame 2 [("hashtag", [CStr "#sale"; CStr "a#b"])].

Definition today : string := "2026-11-03".



Definition no_users : DataFrame cell :=
  mkDataFrame 0 [("username_twitter", []); ("type", [])].

(** The table [tags] as a run of the hashtag node leaves it. *)
Definition tags_done : DataFrame cell :=
  mkDataFrame 2 [("hashtag", [CStr "#sale"; CStr "a#b"]);
                 ("text", [CStr "sale"; CStr "ab"])].

Definition no_tags : DataFrame cell :=
  mkDataFrame 0 [("hashtag", [])].

(** The parameters of a run: four credential strings. *)
Definition params : gmap string string :=
  <["twitter_api_consumer_key" := "key"]>
    (<["twitter_api_consumer_secret" := "secret"]>
       (<["twitter_api_access_token" := "token"]>
          (<["twitter_api_access_secret" := "token secret"]> ∅))).

(** Twitter when it has nothing to return, whoever asks. *)
Definition service_empty : OAuth -> request -> item_stream :=
  fun _ _ => EndOfItems.

(** Twitter when it rejects the credentials of every request. *)
Definition service_rejecting : OAuth -> request -> item_stream :=
  fun _ _ => Broken (TweepyException "401 Unauthorized").

End Stub.

(** * Properties *)

(** ** The monad and the comprehension *)

Lemma logged_logged w evs evs' :
  logged (logged w evs) evs' = logged w (evs ++ evs').
Proof. unfold logged; simpl. by rewrite <- app_assoc. Qed.

Lemma logged_nil w : logged w [] = w.
Proof. destruct w; unfold logged; simpl. by rewrite app_nil_r. Qed.


Lemma heap_logged w evs : heap (logged w evs) = heap w.
Proof. reflexivity. Qed.

Ltac run_monad :=
  unfold mbind, M_bind, mret, M_ret, result_bind, result_ret, lift, print,
    emit, try_except_TweepyException, cursor_items, api_method; simpl.

(** One equation for all four functions, given a handle. *)
Lemma extract_run a m count tweet_mode n w :
  extract (Some a) m count tweet_mode n w =
  let w1 := logged w (prologue m count tweet_mode) in
  match comprehension (tuple_of m) (fetched a m count tweet_mode n) with
  | Ok rows => (Ok (Some rows), w1)
  | Raise (TweepyException msg) =>
      (Ok None, logged w1 [Stdout (error_line m); Stdout msg])
  | Raise e => (Raise e, w1)
  end.
Proof.
  destruct m; unfold extract, fetched, prologue; simpl;
    [ unfold extract_tweets_from_user_timeline
    | unfold extract_replies_to_user
    | unfold extract_tweets_from_search
    | unfold extract_tweets_from_hashtag ];
    run_monad; rewrite !logged_logged; simpl;
    match goal with |- context [comprehension ?f ?s] =>
      destruct (comprehension f s) as [rows | []] end;
    rewrite ?logged_logged; reflexivity.
Qed.

(** Without a handle the attribute lookup fails before any cursor exists. *)
Lemma extract_run_None m count tweet_mode n w :
  extract None m count tweet_mode n w =
  (Raise (AttributeError
            ("'NoneType' object has no attribute '" +:+ method_name m +:+ "'")),
   logged w [Call (call_of m); Stdout (banner m)]).
Proof.
  destruct m; unfold extract; simpl;
    [ unfold extract_tweets_from_user_timeline
    | unfold extract_replies_to_user
    | unfold extract_tweets_from_search
    | unfold extract_tweets_from_hashtag ];
    run_monad; rewrite !logged_logged; reflexivity.
Qed.

Lemma tuple_of_located m tweet place :
  location (user tweet) = Some place ->
  exists r, tuple_of m tweet = Ok r /\ last r = Some (VStr (place +:+ "")).
Proof.
  intros Hloc.
  destruct m; unfold tuple_of, timeline_tuple, search_tuple;
    rewrite Hloc; simpl; eexists; split; reflexivity.
Qed.

Lemma tuple_of_nowhere m tweet :
  location (user tweet) = None -> tuple_of m tweet = Raise NoneType_plus_str.
Proof.
  intros Hloc.
  destruct m; unfold tuple_of, timeline_tuple, search_tuple;
    rewrite Hloc; reflexivity.
Qed.

Lemma apply_located m pre :
  Forall located pre ->
  exists rows, apply (tuple_of m) pre = Ok rows /\ length rows = length pre.
Proof.
  induction 1 as [| tweet pre [place Hloc] _ (rows & IH & Hlen)].
  - exists []. split; reflexivity.
  - destruct (tuple_of_located m tweet place Hloc) as (r & Hr & _).
    exists (r :: rows). simpl. rewrite Hr, IH. simpl.
    split; [reflexivity | by rewrite Hlen].
Qed.

(** Over a known prefix the comprehension behaves as [apply] does, then
    goes on with the rest of the stream. *)
Lemma comprehension_stream_of f pre tail :
  comprehension f (stream_of pre tail) =
  rows ← apply f pre; rs ← comprehension f tail; Ok (rows ++ rs).
Proof.
  induction pre as [| tweet pre IH]; simpl.
  - unfold mbind, result_bind. by destruct (comprehension f tail).
  - rewrite IH. unfold mbind, result_bind.
    destruct (f tweet); [| reflexivity].
    destruct (apply f pre); [| reflexivity].
    by destruct (comprehension f tail).
Qed.

(** A comprehension that returns has seen a finite stream and built one
    record per item, in order. *)
Lemma comprehension_Ok_inv f tweets rows :
  comprehension f tweets = Ok rows ->
  exists ts, tweets = stream_of ts EndOfItems /\
             Forall2 (fun tweet r => f tweet = Ok r) ts rows.
Proof.
  revert rows. induction tweets as [| tweet rest IH | e]; intros rows H.
  - exists []. simpl in H. inversion H. split; [reflexivity | constructor].
  - simpl in H. unfold mbind, result_bind in H.
    destruct (f tweet) as [r |] eqn:Hr; [| discriminate].
    destruct (comprehension f rest) as [rs |] eqn:Hrs; [| discriminate].
    inversion H; subst.
    destruct (IH rs eq_refl) as (ts & -> & Hall).
    exists (tweet :: ts). split; [reflexivity | by constructor].
  - discriminate.
Qed.

(** The shared core of the failure claims: a Tweepy error met after any
    number of items that flatten is swallowed, and [None] is returned. *)
Lemma extract_fetch_failure a m count tweet_mode n pre msg w :
  fetched a m count tweet_mode n = stream_of pre (Broken (TweepyException msg)) ->
  Forall located pre ->
  extract (Some a) m count tweet_mode n w =
  (Ok None,
   logged w (prologue m count tweet_mode ++
             [Stdout (error_line m); Stdout msg])).
Proof.
  intros Hfetch Hpre.
  rewrite extract_run, Hfetch, comprehension_stream_of. simpl.
  destruct (apply_located m pre Hpre) as (rows & -> & _).
  unfold mbind, result_bind; simpl.
  by rewrite logged_logged.
Qed.

(** Below the cap, the cursor hands over the remote stream's failure
    unchanged. *)
Lemma take_items_stream_of_lt k pre tail :
  (length pre < k)%nat ->
  take_items k (stream_of pre tail) = stream_of pre (take_items (k - length pre) tail).
Proof.
  revert k. induction pre as [| tweet pre IH]; intros k Hk; simpl in *.
  - by rewrite Nat.sub_0_r.
  - destruct k as [| k]; [lia |]. simpl. rewrite IH by lia. reflexivity.
Qed.

Lemma items_broken_below_cap n pre e :
  Z.of_nat (length pre) < n ->
  items n (stream_of pre (Broken e)) = stream_of pre (Broken e).
Proof.
  intros Hk. unfold items.
  rewrite take_items_stream_of_lt by lia.
  destruct (Z.to_nat n - length pre)%nat eqn:Hd; [lia | reflexivity].
Qed.

(** At the cap the failure is never reached. *)
Lemma take_items_stream_of_ge k pre tail :
  (k <= length pre)%nat ->
  take_items k (stream_of pre tail) = stream_of (take k pre) EndOfItems.
Proof.
  revert k. induction pre as [| tweet pre IH]; intros k Hk; simpl in *.
  - assert (k = 0%nat) as -> by lia. reflexivity.
  - destruct k as [| k]; [reflexivity |]. simpl. rewrite IH by lia. reflexivity.
Qed.

(** ** Failure of the fetch *)

(** C1, as stated, fails: when the cursor raises a Tweepy error at once,
    the timeline and hashtag functions return [None], not the empty
    list. *)
Lemma fetch_failure_is_not_empty_list :
  fst (extract_tweets_from_user_timeline (Some (Stub.api_const (Broken Stub.boom)))
         (CStr "alice") (CStr "customer") 200 "extended" false false 10000
         Stub.w0) = Ok None /\
  fst (extract_tweets_from_hashtag (Some (Stub.api_const (Broken Stub.boom)))
         (CStr "sale") 200 "extended" "en" "mixed" Stub.today 200
         Stub.w0) = Ok None /\
  @Ok (option (list record)) None <> Ok (Some []).
Proof. split; [reflexivity | split; [reflexivity | discriminate]]. Qed.

(** C1 (amended): for every extraction mode, whenever the fetch fails
    with a Tweepy error (after any number of items that flatten), the
    function raises nothing and returns [None]; it prints the mode's
    error line and the error's message after the usual prologue and
    leaves the DataFrames alone. *)
Theorem fetch_failure_returns_None a m count tweet_mode n pre msg w :
  fetched a m count tweet_mode n = stream_of pre (Broken (TweepyException msg)) ->
  Forall located pre ->
  fst (extract (Some a) m count tweet_mode n w) = Ok None /\
  trace (snd (extract (Some a) m count tweet_mode n w)) =
    trace w ++ prologue m count tweet_mode ++ [Stdout (error_line m); Stdout msg] /\
  heap (snd (extract (Some a) m count tweet_mode n w)) = heap w.
Proof.
  intros Hfetch Hpre.
  rewrite (extract_fetch_failure a m count tweet_mode n pre msg w Hfetch Hpre).
  repeat split.
Qed.

Lemma fetch_failure_returns_None_witness :
  fst (extract (Some (Stub.api_const (Item Stub.hola (Broken Stub.boom))))
         (Replies (CStr "alice") "es" "mixed" Stub.today) 200 "extended" 10000
         Stub.w0) = Ok None.
Proof.
  apply (fetch_failure_returns_None
           (Stub.api_const (Item Stub.hola (Broken Stub.boom)))
           (Replies (CStr "alice") "es" "mixed" Stub.today) 200 "extended" 10000
           [Stub.hola] "boom" Stub.w0).
  - reflexivity.
  - repeat constructor. by exists "Lima".
Defined.

(** C2, as stated, fails: one item is fetched and flattens, then the
    cursor raises; the function returns [None], not the one record. *)
Lemma partial_fetch_not_preserved :
  remote (Stub.api_const (Item Stub.hola (Broken Stub.boom)))
    (UserTimeline (CStr "alice") 200 "extended" false false)
  = stream_of [Stub.hola] (Broken Stub.boom) /\
  (exists r, timeline_tuple (CStr "alice") (CStr "customer") Stub.hola = Ok r /\
     fst (extract_tweets_from_user_timeline
            (Some (Stub.api_const (Item Stub.hola (Broken Stub.boom))))
            (CStr "alice") (CStr "customer") 200 "extended" false false 10000
            Stub.w0) <> Ok (Some [r])).
Proof.
  split; [reflexivity |].
  eexists. split; [reflexivity | discriminate].
Qed.

(** C2 (amended): for every extraction mode, if the remote stream raises
    a Tweepy error after [k] items, [k] below the extraction size, each
    of which flattens, then the [k] records are built and discarded: the
    function returns [None], and raises nothing. *)
Theorem partial_fetch_discarded a m count tweet_mode n pre msg w :
  remote a (request_of m count tweet_mode) =
    stream_of pre (Broken (TweepyException msg)) ->
  Z.of_nat (length pre) < n ->
  Forall located pre ->
  exists rows,
    apply (tuple_of m) pre = Ok rows /\
    length rows = length pre /\
    fst (extract (Some a) m count tweet_mode n w) = Ok None.
Proof.
  intros Hremote Hk Hpre.
  destruct (apply_located m pre Hpre) as (rows & Hrows & Hlen).
  exists rows. repeat split; [assumption | assumption |].
  rewrite (extract_fetch_failure a m count tweet_mode n pre msg w); [reflexivity | | assumption].
  unfold fetched. rewrite Hremote. by apply items_broken_below_cap.
Qed.

Lemma partial_fetch_discarded_witness :
  exists rows,
    apply (tuple_of (Timeline (CStr "alice") (CStr "customer") false false))
      [Stub.hola; Stub.hola] = Ok rows /\
    length rows = 2%nat /\
    fst (extract (Some (Stub.api_const
                          (Item Stub.hola (Item Stub.hola (Broken Stub.boom)))))
           (Timeline (CStr "alice") (CStr "customer") false false)
           200 "extended" 10000 Stub.w0) = Ok None.
Proof.
  apply (partial_fetch_discarded
           (Stub.api_const (Item Stub.hola (Item Stub.hola (Broken Stub.boom))))
           (Timeline (CStr "alice") (CStr "customer") false false)
           200 "extended" 10000 [Stub.hola; Stub.hola] "boom" Stub.w0).
  - reflexivity.
  - simpl. lia.
  - repeat constructor; by exists "Lima".
Defined.

(** Without a failure, and at the cap, all fetched items are returned:
    a failure that lies beyond the extraction size is never met. *)
Lemma failure_beyond_cap_unseen a m count tweet_mode pre e w :
  remote a (request_of m count tweet_mode) = stream_of pre (Broken e) ->
  Forall located pre ->
  exists rows,
    apply (tuple_of m) pre = Ok rows /\
    fst (extract (Some a) m count tweet_mode (Z.of_nat (length pre)) w)
    = Ok (Some rows).
Proof.
  intros Hremote Hpre.
  destruct (apply_located m pre Hpre) as (rows & Hrows & _).
  exists rows. split; [assumption |].
  rewrite extract_run. unfold fetched, items.
  rewrite Hremote, Nat2Z.id, take_items_stream_of_ge by lia.
  rewrite firstn_all, comprehension_stream_of, Hrows. simpl.
  unfold mbind, result_bind. simpl. by rewrite app_nil_r.
Qed.

(** ** Flattening an item without a location *)

(** C5: the code breaks the claim. In every mode, the first fetched item
    whose author's location is [None] makes [location + ''] raise
    [TypeError]; the handler for Tweepy errors does not catch it, so the
    extraction function raises instead of producing a record with an
    empty location. *)
Theorem missing_location_raises_TypeError a m count tweet_mode n pre tweet rest w :
  fetched a m count tweet_mode n = stream_of pre (Item tweet rest) ->
  Forall located pre ->
  location (user tweet) = None ->
  fst (extract (Some a) m count tweet_mode n w) = Raise NoneType_plus_str.
Proof.
  intros Hfetch Hpre Hloc.
  rewrite extract_run, Hfetch, comprehension_stream_of.
  destruct (apply_located m pre Hpre) as (rows & -> & _).
  simpl. rewrite (tuple_of_nowhere m tweet Hloc).
  reflexivity.
Qed.

Lemma missing_location_raises_TypeError_witness :
  location (user Stub.nowhere) = None /\
  fst (extract (Some (Stub.api_const (Item Stub.hola (Item Stub.nowhere EndOfItems))))
         (Search (CStr "rocq") "en" "mixed" Stub.today) 200 "extended" 10000
         Stub.w0) = Raise NoneType_plus_str.
Proof.
  split; [reflexivity |].
  apply (missing_location_raises_TypeError
           (Stub.api_const (Item Stub.hola (Item Stub.nowhere EndOfItems)))
           (Search (CStr "rocq") "en" "mixed" Stub.today) 200 "extended" 10000
           [Stub.hola] Stub.nowhere EndOfItems Stub.w0).
  - reflexivity.
  - repeat constructor. by exists "Lima".
  - reflexivity.
Defined.

(** ** The shape of the records *)

Lemma append_empty_r (s : string) : s +:+ "" = s.
Proof.
  induction s as [| c s IH]; [reflexivity |].
  change (String c (s +:+ "") = String c s). by rewrite IH.
Qed.

Lemma Forall2_right {A B} (P : A -> B -> Prop) (Q : B -> Prop) l k :
  Forall2 P l k -> (forall x y, P x y -> Q y) -> Forall Q k.
Proof. induction 1; intros HPQ; constructor; eauto. Qed.

(** [s + ''] is [s]. *)
Lemma add_str_empty (s : string) : add_str (Some s) "" = Ok s.
Proof. unfold add_str. by rewrite append_empty_r. Qed.

(** Whatever a successful run returns was built item by item from a
    finite fetch, in order. *)
Lemma extract_Ok_inv api m count tweet_mode n w rows :
  fst (extract api m count tweet_mode n w) = Ok (Some rows) ->
  exists a ts,
    api = Some a /\
    fetched a m count tweet_mode n = stream_of ts EndOfItems /\
    Forall2 (fun tweet r => tuple_of m tweet = Ok r) ts rows.
Proof.
  destruct api as [a |]; [| rewrite extract_run_None; discriminate].
  rewrite extract_run. simpl.
  destruct (comprehension _ _) as [rows' | e] eqn:Hc.
  - simpl. intros [= ->].
    destruct (comprehension_Ok_inv _ _ _ Hc) as (ts & Hts & Hall).
    by exists a, ts.
  - destruct e; discriminate.
Qed.

(** One flattened item against the schema of a node that serves the
    mode: arity, and every field under its column. *)
Lemma tuple_of_named_record nd m tweet r :
  node_serves nd m ->
  tuple_of m tweet = Ok r ->
  length r = length (node_columns nd) /\
  exists place,
    location (user tweet) = Some place /\
    combine (node_columns nd) r =
      named_record nd m (of_optstr (user_lang (user tweet))) tweet place.
Proof.
  intros Hserves Hr.
  destruct (location (user tweet)) as [place |] eqn:Hloc;
    [| rewrite (tuple_of_nowhere m tweet Hloc) in Hr; discriminate].
  destruct m, nd; try contradiction;
    unfold tuple_of, timeline_tuple, search_tuple in Hr;
    rewrite Hloc, add_str_empty in Hr; simpl in Hr;
    injection Hr as <-;
    (split; [reflexivity | exists place; split; reflexivity]).
Qed.

(** C6: for every extraction mode and every result it returns, each
    record has as many fields as the schema of the node that calls the
    mode has columns (16 for timelines, 17 for replies, searches and
    hashtags), and paired with the declared column names in order it is
    the named record of the item it was built from, every position
    pinned: the language column holds the author's profile language. *)
Theorem record_matches_schema nd api m count tweet_mode n w rows :
  node_serves nd m ->
  fst (extract api m count tweet_mode n w) = Ok (Some rows) ->
  length (node_columns nd) = match nd with Timelines => 16%nat | _ => 17%nat end /\
  exists a ts,
    api = Some a /\
    fetched a m count tweet_mode n = stream_of ts EndOfItems /\
    Forall2 (fun tweet r =>
               length r = length (node_columns nd) /\
               exists place,
                 location (user tweet) = Some place /\
                 combine (node_columns nd) r =
                   named_record nd m (of_optstr (user_lang (user tweet)))
                     tweet place)
            ts rows.
Proof.
  intros Hserves Hrun.
  split; [by destruct nd |].
  destruct (extract_Ok_inv _ _ _ _ _ _ _ Hrun) as (a & ts & -> & Hts & Hall).
  exists a, ts. repeat split; [assumption |].
  eapply Forall2_impl; [exact Hall |].
  intros tweet r Hr.
  destruct (tuple_of_named_record nd m tweet r Hserves Hr) as (Hlen & place & Hloc & Hnamed).
  split; [assumption |]. by exists place.
Qed.

Lemma record_matches_schema_witness :
  exists a ts,
    Some (Stub.api_const (Item Stub.hola EndOfItems)) = Some a /\
    fetched a (Hashtag (CStr "sale") "es" "mixed" Stub.today) 200 "extended" 10000
      = stream_of ts EndOfItems /\
    Forall2 (fun tweet r =>
               length r = length (node_columns Hashtags) /\
               exists place,
                 location (user tweet) = Some place /\
                 combine (node_columns Hashtags) r =
                   named_record Hashtags
                     (Hashtag (CStr "sale") "es" "mixed" Stub.today)
                     (of_optstr (user_lang (user tweet))) tweet place)
            ts
            [[VStr "#sale"; VStr "es"; VStr "1001"; VTime 1700000000;
              VStr "hola"; VStr "en"; VInt 3; VInt 4;
              VList [Entity "https://t.co/x"]; VList []; VList [];
              VStr "42"; VStr "bob"; VBool false; VInt 10; VInt 20;
              VStr "Lima"]].
Proof.
  apply (record_matches_schema Hashtags
           (Some (Stub.api_const (Item Stub.hola EndOfItems)))
           (Hashtag (CStr "sale") "es" "mixed" Stub.today) 200 "extended" 10000
           Stub.w0).
  - exact I.
  - reflexivity.
Defined.

(** ** The hashtag mode *)

(** C7: for every tag string, the hashtag mode opens its cursor on the
    query made of the marker [#] followed by the tag, and the first
    field, the [hashtag] column, of every record it returns is that same
    marked tag. *)
Theorem hashtag_query_and_key a tag count tweet_mode language result_type until n w :
  (exists evs,
     trace (snd (extract_tweets_from_hashtag (Some a) (CStr tag) count
                   tweet_mode language result_type until n w)) =
     trace w ++
     [Call (HashtagCall (CStr tag) language);
      Stdout ("Extracting hashtag: " +:+ tag);
      Cursor (SearchTweets (CStr ("#" +:+ tag)) language tweet_mode
                result_type count until)] ++ evs) /\
  (forall rows,
     fst (extract_tweets_from_hashtag (Some a) (CStr tag) count
            tweet_mode language result_type until n w) = Ok (Some rows) ->
     Forall (fun r => head r = Some (VStr ("#" +:+ tag)) /\
                      field hashtags_columns r "hashtag" = Some (VStr ("#" +:+ tag)))
            rows).
Proof.
  pose proof (extract_run a (Hashtag (CStr tag) language result_type until)
                count tweet_mode n w) as Hrun.
  simpl in Hrun. split.
  - rewrite Hrun.
    destruct (comprehension _ _) as [rows | []]; simpl;
      first [ by exists [] | eexists; rewrite <- app_assoc; reflexivity ].
  - intros rows Hrows.
    change (fst (extract (Some a) (Hashtag (CStr tag) language result_type until)
                   count tweet_mode n w) = Ok (Some rows)) in Hrows.
    destruct (extract_Ok_inv (Some a) (Hashtag (CStr tag) language result_type until)
                count tweet_mode n w rows Hrows) as (a' & ts & _ & _ & Hall).
    eapply Forall2_right; [exact Hall |].
    intros tweet r Hr. simpl in Hr.
    destruct (tuple_of_named_record Hashtags
                (Hashtag (CStr tag) language result_type until) tweet r I Hr)
      as (_ & place & _ & Hnamed).
    unfold field. change hashtags_columns with (node_columns Hashtags).
    rewrite Hnamed. simpl in Hr. unfold search_tuple in Hr.
    destruct (add_str _ _); [| discriminate]. injection Hr as <-.
    split; reflexivity.
Qed.

(** The scenario of C7: the tag [sale]. *)
Lemma hashtag_query_and_key_witness :
  Forall (fun r => head r = Some (VStr "#sale") /\
                   field hashtags_columns r "hashtag" = Some (VStr "#sale"))
    [[VStr "#sale"; VStr "en"; VStr "1001"; VTime 1700000000;
      VStr "hola"; VStr "en"; VInt 3; VInt 4;
      VList [Entity "https://t.co/x"]; VList []; VList [];
      VStr "42"; VStr "bob"; VBool false; VInt 10; VInt 20; VStr "Lima"]].
Proof.
  apply (proj2 (hashtag_query_and_key (Stub.api_const (Item Stub.hola EndOfItems))
                  "sale" 200 "extended" "en" "mixed" Stub.today 10000 Stub.w0)).
  reflexivity.
Defined.

(** ** Rules for specifications *)

Section Hoare.

Context {A B : Type}.

Lemma hoare_weaken (P P' : world -> Prop) (m : M A) (Q Q' : A -> world -> Prop)
    (E E' : exn -> world -> Prop) :
  hoare P' m Q' E' ->
  (forall w, P w -> P' w) ->
  (forall a w, Q' a w -> Q a w) ->
  (forall e w, E' e w -> E e w) ->
  hoare P m Q E.
Proof.
  intros Hm HP HQ HE w Hw. specialize (Hm w (HP w Hw)).
  destruct (m w) as [[a | e] w']; auto.
Qed.

Lemma hoare_ret (P : world -> Prop) (a : A) (Q : A -> world -> Prop) E :
  (forall w, P w -> Q a w) -> hoare P (mret a) Q E.
Proof. intros HQ w Hw. by apply HQ. Qed.

Lemma hoare_lift (P : world -> Prop) (r : result A) (Q : A -> world -> Prop) E :
  (forall w, P w -> match r with Ok a => Q a w | Raise e => E e w end) ->
  hoare P (lift r) Q E.
Proof. intros HQ w Hw. specialize (HQ w Hw). unfold lift. by destruct r. Qed.

Lemma hoare_bind (P : world -> Prop) (m : M A) (f : A -> M B)
    (Q : A -> world -> Prop) (R : B -> world -> Prop) E :
  hoare P m Q E ->
  (forall a, hoare (Q a) (f a) R E) ->
  hoare P (m ≫= f) R E.
Proof.
  intros Hm Hf w Hw. specialize (Hm w Hw).
  unfold mbind, M_bind. destruct (m w) as [[a | e] w']; [| assumption].
  by apply Hf.
Qed.

Lemma hoare_try (P : world -> Prop) (body : M A) (handler : string -> M A)
    (Q : A -> world -> Prop) (H : string -> world -> Prop) E :
  hoare P body Q
    (fun e w => match e with TweepyException msg => H msg w | _ => E e w end) ->
  (forall msg, hoare (H msg) (handler msg) Q E) ->
  hoare P (try_except_TweepyException body handler) Q E.
Proof.
  intros Hbody Hh w Hw. specialize (Hbody w Hw).
  unfold try_except_TweepyException.
  destruct (body w) as [[a | []] w']; try assumption.
  by apply Hh.
Qed.

(** A loop keeps an invariant that may mention what is left to do. *)
Lemma hoare_for_each (I : list A -> B -> world -> Prop) E
    (body : A -> B -> M B) (xs : list A) (acc : B) :
  (forall x rest acc, hoare (I (x :: rest) acc) (body x acc) (I rest) E) ->
  hoare (I xs acc) (for_each body xs acc) (I []) E.
Proof.
  intros Hbody. revert acc.
  induction xs as [| x xs IH]; intros acc; simpl.
  - intros w Hw. exact Hw.
  - intros w Hw. specialize (Hbody x xs acc w Hw).
    unfold mbind, M_bind. destruct (body x acc w) as [[acc' | e] w']; [| assumption].
    by apply IH.
Qed.

End Hoare.

Lemma hoare_emit (P : world -> Prop) (ev : event) (Q : unit -> world -> Prop) E :
  (forall w, P w -> Q tt (logged w [ev])) -> hoare P (emit ev) Q E.
Proof. intros HQ w Hw. by apply HQ. Qed.

Lemma hoare_deref (P : world -> Prop) (l : loc) (Q : DataFrame cell -> world -> Prop) E :
  (forall w, P w ->
     match heap w !! l with
     | Some df => Q df w
     | None => E (NameError "unbound DataFrame") w
     end) ->
  hoare P (deref l) Q E.
Proof.
  intros HQ w Hw. specialize (HQ w Hw). unfold deref.
  by destruct (heap w !! l).
Qed.

(** ** Code that leaves the DataFrames alone *)

Lemma keeps_heap_hoare {A} (m : M A) :
  keeps_heap m <->
  forall h, hoare (fun w => heap w = h) m
              (fun _ w => heap w = h) (fun _ w => heap w = h).
Proof.
  split.
  - intros Hm h w Hw. specialize (Hm w).
    destruct (m w) as [[a | e] w']; simpl in Hm; congruence.
  - intros Hm w. specialize (Hm (heap w) w eq_refl).
    by destruct (m w) as [[a | e] w'].
Qed.

Lemma keeps_ret {A} (a : A) : keeps_heap (mret a : M A).
Proof. by intros w. Qed.

Lemma keeps_lift {A} (r : result A) : keeps_heap (lift r).
Proof. by intros w. Qed.

Lemma keeps_emit ev : keeps_heap (emit ev).
Proof. by intros w. Qed.

Lemma keeps_print line : keeps_heap (print line).
Proof. by intros w. Qed.

Lemma keeps_deref l : keeps_heap (deref l).
Proof. intros w. unfold deref. by destruct (heap w !! l). Qed.

Lemma keeps_bind {A B} (m : M A) (f : A -> M B) :
  keeps_heap m -> (forall a, keeps_heap (f a)) -> keeps_heap (m ≫= f).
Proof.
  intros Hm Hf w. specialize (Hm w). unfold mbind, M_bind.
  destruct (m w) as [[a | e] w']; simpl in *; [| assumption].
  by rewrite Hf.
Qed.

Lemma keeps_try {A} (body : M A) handler :
  keeps_heap body -> (forall msg, keeps_heap (handler msg)) ->
  keeps_heap (try_except_TweepyException body handler).
Proof.
  intros Hbody Hh w. specialize (Hbody w). unfold try_except_TweepyException.
  destruct (body w) as [[a | []] w']; simpl in *; try assumption.
  by rewrite Hh.
Qed.

Lemma keeps_for_each {A S} (body : A -> S -> M S) xs acc :
  (forall x acc, keeps_heap (body x acc)) -> keeps_heap (for_each body xs acc).
Proof.
  intros Hbody. revert acc.
  induction xs as [| x xs IH]; intros acc; simpl.
  - apply keeps_ret.
  - apply keeps_bind; [apply Hbody | apply IH].
Qed.

Lemma keeps_if {A} (b : bool) (m1 m2 : M A) :
  keeps_heap m1 -> keeps_heap m2 -> keeps_heap (if b then m1 else m2).
Proof. by destruct b. Qed.

Lemma keeps_extract api m count tweet_mode n :
  keeps_heap (extract api m count tweet_mode n).
Proof.
  intros w. destruct api as [a |].
  - rewrite extract_run. simpl.
    by destruct (comprehension _ _) as [rows | []].
  - by rewrite extract_run_None.
Qed.

Lemma keeps_get_auth tweepy key secret token token_secret :
  keeps_heap (get_auth tweepy key secret token token_secret).
Proof.
  unfold get_auth.
  apply keeps_try; [| intros msg];
    repeat first [ apply keeps_lift | apply keeps_print | apply keeps_ret
                 | apply keeps_bind; [| intros ?] ].
Qed.

Lemma keeps_timeline api screen_name user_type count tweet_mode
    exclude_replies include_rts n :
  keeps_heap (extract_tweets_from_user_timeline api screen_name user_type count
                tweet_mode exclude_replies include_rts n).
Proof.
  exact (keeps_extract api
           (Timeline screen_name user_type exclude_replies include_rts)
           count tweet_mode n).
Qed.

Lemma keeps_replies_to_user api username count tweet_mode language
    result_type until n :
  keeps_heap (extract_replies_to_user api username count tweet_mode language
                result_type until n).
Proof.
  exact (keeps_extract api (Replies username language result_type until)
           count tweet_mode n).
Qed.

Lemma keeps_search api query count tweet_mode language result_type until n :
  keeps_heap (extract_tweets_from_search api query count tweet_mode language
                result_type until n).
Proof.
  exact (keeps_extract api (Search query language result_type until)
           count tweet_mode n).
Qed.

Lemma keeps_hashtag api hashtag count tweet_mode language result_type until n :
  keeps_heap (extract_tweets_from_hashtag api hashtag count tweet_mode language
                result_type until n).
Proof.
  exact (keeps_extract api (Hashtag hashtag language result_type until)
           count tweet_mode n).
Qed.

Ltac keeps_step :=
  lazymatch goal with
  | |- keeps_heap (mret _) => apply keeps_ret
  | |- keeps_heap (lift _) => apply keeps_lift
  | |- keeps_heap (print _) => apply keeps_print
  | |- keeps_heap (emit _) => apply keeps_emit
  | |- keeps_heap (deref _) => apply keeps_deref
  | |- keeps_heap (get_auth _ _ _ _ _) => apply keeps_get_auth
  | |- keeps_heap (auth_from_params _ _) => apply keeps_get_auth
  | |- keeps_heap (extract_tweets_from_user_timeline _ _ _ _ _ _ _ _) =>
      apply keeps_timeline
  | |- keeps_heap (extract_replies_to_user _ _ _ _ _ _ _ _) =>
      apply keeps_replies_to_user
  | |- keeps_heap (extract_tweets_from_search _ _ _ _ _ _ _ _) =>
      apply keeps_search
  | |- keeps_heap (extract_tweets_from_hashtag _ _ _ _ _ _ _ _) =>
      apply keeps_hashtag
  | |- keeps_heap (user_timelines_row _ _ _ _) => unfold user_timelines_row
  | |- keeps_heap (replies_to_users_row _ _ _ _ _) => unfold replies_to_users_row
  | |- keeps_heap (search_users_row _ _ _ _ _) => unfold search_users_row
  | |- keeps_heap (hashtags_row _ _ _ _ _) => unfold hashtags_row
  | |- keeps_heap (queries_row _ _ _ _ _) => unfold queries_row
  | |- keeps_heap (if _ then _ else _) => apply keeps_if
  | |- keeps_heap (for_each _ _ _) => apply keeps_for_each; intros ? ?
  | |- keeps_heap (_ ≫= _) => apply keeps_bind; [| intros ?]
  end.

Ltac keeps := repeat keeps_step.

Lemma keeps_timelines tweepy data params :
  keeps_heap (extract_user_timelines tweepy data params).
Proof. unfold extract_user_timelines. keeps. Qed.

Lemma keeps_replies tweepy today data params :
  keeps_heap (extract_replies_to_users tweepy today data params).
Proof. unfold extract_replies_to_users. keeps. Qed.

Lemma keeps_search_users tweepy today data params :
  keeps_heap (extract_search_users tweepy today data params).
Proof. unfold extract_search_users. keeps. Qed.

Lemma keeps_queries tweepy today data params :
  keeps_heap (extract_tweets_from_queries tweepy today data params).
Proof. unfold extract_tweets_from_queries. keeps. Qed.

(** ** The language column *)

(** C8, as stated, fails: a Spanish post by an author whose profile
    language is English is recorded with language [en]. *)
Lemma replies_language_is_not_the_posts :
  lang Stub.hola = Some "es" /\
  exists r,
    fst (extract_replies_to_user
           (Some (Stub.api_const (Item Stub.hola EndOfItems)))
           (CStr "alice") 200 "extended" "es" "mixed" Stub.today 10000
           Stub.w0) = Ok (Some [r]) /\
    field replies_columns r "language" = Some (VStr "en") /\
    field replies_columns r "language" <> Some (of_optstr (lang Stub.hola)).
Proof.
  split; [reflexivity |].
  eexists. split; [reflexivity |]. split; [reflexivity | discriminate].
Qed.

(** C8 (amended): for every raw item returned by the replies
    extraction, the [language] field of its record is the language of
    the author's profile ([tweet.user.lang], [None] when the profile has
    none), whatever language was requested; the requested language is
    the [requested_language] field. *)
Theorem replies_language_is_authors api username count tweet_mode language
    result_type until n w rows :
  fst (extract_replies_to_user api username count tweet_mode language
         result_type until n w) = Ok (Some rows) ->
  exists a ts,
    api = Some a /\
    fetched a (Replies username language result_type until) count tweet_mode n
      = stream_of ts EndOfItems /\
    Forall2 (fun tweet r =>
               field replies_columns r "language"
                 = Some (of_optstr (user_lang (user tweet))) /\
               field replies_columns r "requested_language"
                 = Some (VStr language))
            ts rows.
Proof.
  intros Hrun.
  change (fst (extract api (Replies username language result_type until)
                 count tweet_mode n w) = Ok (Some rows)) in Hrun.
  destruct (extract_Ok_inv _ _ _ _ _ _ _ Hrun) as (a & ts & -> & Hts & Hall).
  exists a, ts. repeat split; [assumption |].
  eapply Forall2_impl; [exact Hall |].
  intros tweet r Hr.
  destruct (tuple_of_named_record RepliesToUsers
              (Replies username language result_type until) tweet r I Hr)
    as (_ & place & _ & Hnamed).
  unfold field. change replies_columns with (node_columns RepliesToUsers).
  rewrite Hnamed. split; reflexivity.
Qed.

Lemma replies_language_is_authors_witness :
  exists a ts,
    Some (Stub.api_const (Item Stub.hola EndOfItems)) = Some a /\
    fetched a (Replies (CStr "alice") "es" "mixed" Stub.today) 200 "extended" 10000
      = stream_of ts EndOfItems /\
    Forall2 (fun tweet r =>
               field replies_columns r "language"
                 = Some (of_optstr (user_lang (user tweet))) /\
               field replies_columns r "requested_language" = Some (VStr "es"))
            ts
            [[VStr "alice"; VStr "es"; VStr "1001"; VTime 1700000000;
              VStr "hola"; VStr "en"; VInt 3; VInt 4;
              VList [Entity "https://t.co/x"]; VList []; VList [];
              VStr "42"; VStr "bob"; VBool false; VInt 10; VInt 20;
              VStr "Lima"]].
Proof.
  apply (replies_language_is_authors
           (Some (Stub.api_const (Item Stub.hola EndOfItems)))
           (CStr "alice") 200 "extended" "es" "mixed" Stub.today 10000 Stub.w0).
  reflexivity.
Defined.

(** ** Authentication *)

(** C9: the code breaks the claim. [get_auth] takes no step that
    checks the credentials: with tweepy as the library is, for every
    four credential strings, valid or not, it prints the success line
    and returns a handle. Bad credentials give neither an error nor
    [None], and no diagnostic is printed. When Twitter rejects every
    request signed with these credentials, the failure shows only later
    and elsewhere: every extraction made with the handle returns
    [None]. *)
Theorem get_auth_accepts_any_credentials service key secret token token_secret w :
  get_auth (tweepy_library service)
    (Some key) (Some secret) (Some token) (Some token_secret) w
  = (Ok (Some (mkAPI (service (mkOAuth (Some key) (Some secret)
                                 (Some token) (Some token_secret))) true)),
     logged w [Stdout "Successfully authenticated with the Twitter API"]) /\
  ~ signals_AuthError
      (fst (get_auth (tweepy_library service)
              (Some key) (Some secret) (Some token) (Some token_secret) w)) /\
  (forall msg,
     (forall r, service (mkOAuth (Some key) (Some secret)
                           (Some token) (Some token_secret)) r
                = Broken (TweepyException msg)) ->
     forall m count tweet_mode n w',
       0 < n ->
       fst (extract
              (Some (mkAPI (service (mkOAuth (Some key) (Some secret)
                                       (Some token) (Some token_secret))) true))
              m count tweet_mode n w') = Ok None).
Proof.
  split; [reflexivity |]. split; [intros [] |].
  intros msg Hrejected m count tweet_mode n w' Hn.
  rewrite (extract_fetch_failure _ m count tweet_mode n [] msg w');
    [reflexivity | | constructor].
  unfold fetched, items. cbn [remote]. rewrite Hrejected.
  destruct (Z.to_nat n) eqn:Hk; [lia | reflexivity].
Qed.

Lemma get_auth_accepts_any_credentials_witness :
  get_auth (tweepy_library Stub.service_rejecting)
    (Some "bad key") (Some "bad secret") (Some "bad token")
    (Some "bad token secret") Stub.w0
  = (Ok (Some (mkAPI (fun _ => Broken (TweepyException "401 Unauthorized")) true)),
     logged Stub.w0 [Stdout "Successfully authenticated with the Twitter API"]) /\
  fst (extract
         (Some (mkAPI (Stub.service_rejecting
                         (mkOAuth (Some "bad key") (Some "bad secret")
                            (Some "bad token") (Some "bad token secret"))) true))
         (Search (CStr "rocq") "en" "mixed" Stub.today) 200 "extended" 10000
         Stub.w0) = Ok None.
Proof.
  split.
  - apply (proj1 (get_auth_accepts_any_credentials Stub.service_rejecting
                    "bad key" "bad secret" "bad token" "bad token secret"
                    Stub.w0)).
  - apply (proj2 (proj2 (get_auth_accepts_any_credentials Stub.service_rejecting
                           "bad key" "bad secret" "bad token" "bad token secret"
                           Stub.w0))
             "401 Unauthorized").
    + reflexivity.
    + reflexivity.
Defined.

(** The handler of [get_auth], for whatever tweepy does: when a step
    raises a Tweepy error, [get_auth] raises nothing and returns [None],
    and the last two lines it prints are the diagnostic and the error's
    message; when every step succeeds it returns the handle. *)
Lemma get_auth_failure_returns_None tweepy key secret token token_secret w :
  (forall msg,
     auth_fails tweepy key secret token token_secret msg ->
     fst (get_auth tweepy key secret token token_secret w) = Ok None /\
     exists evs,
       trace (snd (get_auth tweepy key secret token token_secret w)) =
       trace w ++ evs ++ [Stdout "Error authenticating with Twitter API";
                          Stdout msg]) /\
  (forall api,
     auth_succeeds tweepy key secret token token_secret api ->
     get_auth tweepy key secret token token_secret w =
     (Ok (Some api),
      logged w [Stdout "Successfully authenticated with the Twitter API"])).
Proof.
  split.
  - intros msg Hfail. unfold auth_fails in Hfail. unfold get_auth. run_monad.
    destruct (tweepy_OAuthHandler tweepy key secret) as [auth | e]; simpl.
    + destruct (tweepy_set_access_token tweepy auth token token_secret)
        as [auth' | e]; simpl.
      * rewrite Hfail. simpl. split; [reflexivity |].
        exists [Stdout "Successfully authenticated with the Twitter API"].
        rewrite <- !app_assoc. reflexivity.
      * subst e. simpl. split; [reflexivity |].
        exists []. rewrite <- !app_assoc. reflexivity.
    + subst e. simpl. split; [reflexivity |].
      exists []. rewrite <- !app_assoc. reflexivity.
  - intros api (auth & auth' & H1 & H2 & H3). unfold get_auth. run_monad.
    rewrite H1. simpl. rewrite H2. simpl. rewrite H3. reflexivity.
Qed.

Lemma get_auth_failure_returns_None_witness :
  fst (get_auth Stub.tweepy_refused (Some "key") (Some "secret") (Some "token")
         (Some "token secret") Stub.w0) = Ok None /\
  get_auth (Stub.tweepy_ok EndOfItems) (Some "key") (Some "secret")
    (Some "token") (Some "token secret") Stub.w0
  = (Ok (Some (mkAPI (fun _ => EndOfItems) true)),
     logged Stub.w0 [Stdout "Successfully authenticated with the Twitter API"]).
Proof.
  split.
  - apply (proj1 (get_auth_failure_returns_None Stub.tweepy_refused
                    (Some "key") (Some "secret") (Some "token")
                    (Some "token secret") Stub.w0) "Unauthorized").
    reflexivity.
  - apply (proj2 (get_auth_failure_returns_None (Stub.tweepy_ok EndOfItems)
                    (Some "key") (Some "secret") (Some "token")
                    (Some "token secret") Stub.w0)).
    eexists _, _. repeat split.
Defined.

(** ** The input table *)

Lemma bind_run {A B} (m : M A) (f : A -> M B) w :
  (m ≫= f) w =
  match m w with
  | (Ok a, w') => f a w'
  | (Raise e, w') => (Raise e, w')
  end.
Proof. reflexivity. Qed.

(** Whether [get_auth] returns, and what, does not depend on the world. *)
Lemma get_auth_fst_indep tweepy key secret token token_secret w w' :
  fst (get_auth tweepy key secret token token_secret w) =
  fst (get_auth tweepy key secret token token_secret w').
Proof.
  unfold get_auth. run_monad.
  destruct (tweepy_OAuthHandler tweepy key secret) as [auth | []]; simpl;
    try reflexivity.
  destruct (tweepy_set_access_token tweepy auth token token_secret)
    as [auth' | []]; simpl; try reflexivity.
  destruct (tweepy_API tweepy auth' true) as [api | []]; reflexivity.
Qed.

Lemma apply_cell_replace_strings tags :
  apply (fun hashtag => cell_replace hashtag "#"%char "") (map CStr tags) =
  Ok (map (fun tag => CStr (str_replace tag "#"%char "")) tags).
Proof.
  induction tags as [| tag tags IH]; simpl; [reflexivity |].
  rewrite IH. reflexivity.
Qed.

(** A missing hashtag stops [apply] with an [AttributeError]. *)
Lemma apply_cell_replace_missing series :
  Exists (fun c => notna c = false) series ->
  exists msg,
    apply (fun hashtag => cell_replace hashtag "#"%char "") series =
    Raise (AttributeError msg).
Proof.
  induction 1 as [c series Hc | c series _ [msg IH]].
  - destruct c; [eexists; reflexivity | eexists; reflexivity | discriminate].
  - simpl. rewrite IH. destruct c; simpl; eexists; reflexivity.
Qed.

Lemma assoc_assoc_set {A} k (v : A) l : assoc k (assoc_set k v l) = Some v.
Proof.
  induction l as [| [k' v'] l IH]; simpl.
  - by rewrite String.eqb_refl.
  - destruct (String.eqb k k') eqn:Hk; simpl; rewrite ?Hk, ?String.eqb_refl; auto.
Qed.

(** No [#] is left in a stripped tag. *)
Lemma str_replace_strips tag :
  ~ In "#"%char (list_ascii_of_string (str_replace tag "#"%char "")).
Proof.
  induction tag as [| c tag IH]; simpl; [tauto |].
  destruct (Ascii.eqb c "#") eqn:Hc; [exact IH |].
  simpl. intros [-> | Hin]; [| tauto].
  by rewrite Ascii.eqb_refl in Hc.
Qed.

(** What the hashtag node does to the frame it is given, up to the
    loop: the [text] column is written into the caller's object. *)
Lemma hashtags_node_heap tweepy today data params w df tags api :
  heap w !! data = Some df ->
  df_col df "hashtag" = Ok (map CStr tags) ->
  fst (auth_from_params tweepy params w) = Ok api ->
  heap (snd (extract_tweets_from_hashtags tweepy today data params w)) =
  <[data := df_set_col "text"
              (map (fun tag => CStr (str_replace tag "#"%char "")) tags) df]>
    (heap w).
Proof.
  intros Hdf Hcol Hauth.
  unfold extract_tweets_from_hashtags.
  rewrite bind_run. unfold print, emit at 1.
  set (w1 := logged w _).
  rewrite bind_run.
  pose proof (keeps_get_auth tweepy
                (params !! "twitter_api_consumer_key")
                (params !! "twitter_api_consumer_secret")
                (params !! "twitter_api_access_token")
                (params !! "twitter_api_access_secret") w1) as Hkeep.
  assert (fst (auth_from_params tweepy params w1) = Ok api) as Hauth1.
  { rewrite <- Hauth. apply get_auth_fst_indep. }
  fold (auth_from_params tweepy params) in Hkeep.
  destruct (auth_from_params tweepy params w1) as [[api' | e] w2];
    simpl in Hauth1, Hkeep; [| discriminate].
  assert (heap w2 !! data = Some df) as Hdf2 by (by rewrite Hkeep).
  rewrite bind_run. unfold deref at 1. rewrite Hdf2.
  rewrite bind_run. unfold lift at 1. rewrite Hcol.
  rewrite bind_run. unfold lift at 1. rewrite apply_cell_replace_strings.
  rewrite bind_run. unfold deref at 1. rewrite Hdf2.
  rewrite bind_run. unfold store at 1.
  set (w3 := mkWorld _ _).
  rewrite bind_run. unfold deref at 1.
  assert (heap w3 !! data = Some (df_set_col "text"
            (map (fun tag => CStr (str_replace tag "#"%char "")) tags) df)) as Hdf3.
  { subst w3. simpl. apply lookup_insert_eq. }
  rewrite Hdf3.
  match goal with
  | |- heap (snd (?m w3)) = _ =>
      assert (keeps_heap m) as Hrest by keeps; rewrite (Hrest w3)
  end.
  subst w3. simpl. by rewrite Hkeep.
Qed.

Lemma df_set_col_changes {A} name (col : list A) df :
  df_col df name <> Ok col -> df_set_col name col df <> df.
Proof.
  intros Hne Heq. apply Hne. unfold df_col.
  rewrite <- Heq. simpl. by rewrite assoc_assoc_set.
Qed.

Lemma assoc_set_same {A} k (v : A) l : assoc k l = Some v -> assoc_set k v l = l.
Proof.
  induction l as [| [k' v'] l IH]; simpl; [discriminate |].
  destruct (String.eqb k k') eqn:Hk.
  - intros [= ->]. apply String.eqb_eq in Hk. by subst k'.
  - intros Hl. by rewrite IH.
Qed.

(** Writing the column a frame already holds leaves the frame as it is. *)
Lemma df_set_col_same {A} name (col : list A) df :
  df_col df name = Ok col -> df_set_col name col df = df.
Proof.
  unfold df_col, df_set_col. destruct df as [n cols]; simpl.
  destruct (assoc name cols) as [col' |] eqn:Hcol; [| discriminate].
  intros [= ->]. by rewrite (assoc_set_same _ _ _ Hcol).
Qed.

(** C10, as stated, fails: on a frame that already carries the stripped
    [text] column, as the frame of an earlier run does, the hashtag node
    writes the same column again, and the frame the caller sees after
    the run is the frame that was passed in. *)
Lemma hashtags_rerun_leaves_input_as_passed :
  heap (Stub.world_of Stub.tags_done) !! 1%positive = Some Stub.tags_done /\
  heap (snd (run_node (tweepy_library Stub.service_empty) Stub.today Hashtags
               1%positive Stub.params (Stub.world_of Stub.tags_done)))
    !! 1%positive = Some Stub.tags_done /\
  ~ (heap (snd (run_node (tweepy_library Stub.service_empty) Stub.today Hashtags
                  1%positive Stub.params (Stub.world_of Stub.tags_done)))
       !! 1%positive <> Some Stub.tags_done).
Proof.
  assert (heap (snd (run_node (tweepy_library Stub.service_empty) Stub.today
                       Hashtags 1%positive Stub.params
                       (Stub.world_of Stub.tags_done)))
            !! 1%positive = Some Stub.tags_done) as Hrun.
  { cbn [run_node].
    rewrite (hashtags_node_heap (tweepy_library Stub.service_empty) Stub.today
               1%positive Stub.params (Stub.world_of Stub.tags_done)
               Stub.tags_done ["#sale"; "a#b"]
               (Some (mkAPI (fun _ => EndOfItems) true))
               eq_refl eq_refl eq_refl).
    rewrite lookup_insert_eq. reflexivity. }
  split; [reflexivity |]. split; [exact Hrun |]. intros Hne. exact (Hne Hrun).
Qed.

(** C10 (amended): the hashtag node works on the caller's own DataFrame.
    Given a frame whose [hashtag] column holds strings (and an
    authentication that does not raise), after the run, however it ends,
    the caller's frame carries a [text] column, new or overwritten,
    holding each tag with its [#] characters removed; it is the frame
    that was passed in exactly when that frame already had this very
    column, and differs from it otherwise. Every other node leaves all
    DataFrames as they were. *)
Theorem hashtags_node_mutates_its_input tweepy today data params w :
  (forall df tags api,
     heap w !! data = Some df ->
     df_col df "hashtag" = Ok (map CStr tags) ->
     fst (auth_from_params tweepy params w) = Ok api ->
     heap (snd (run_node tweepy today Hashtags data params w)) =
       <[data := df_set_col "text"
                   (map (fun tag => CStr (str_replace tag "#"%char "")) tags) df]>
         (heap w) /\
     Forall (fun tag =>
               ~ In "#"%char (list_ascii_of_string (str_replace tag "#"%char "")))
            tags /\
     (df_col df "text" <>
        Ok (map (fun tag => CStr (str_replace tag "#"%char "")) tags) ->
      heap (snd (run_node tweepy today Hashtags data params w)) !! data
        <> Some df) /\
     (df_col df "text" =
        Ok (map (fun tag => CStr (str_replace tag "#"%char "")) tags) ->
      heap (snd (run_node tweepy today Hashtags data params w)) !! data
        = Some df)) /\
  (forall nd, nd <> Hashtags ->
     heap (snd (run_node tweepy today nd data params w)) = heap w).
Proof.
  split.
  - intros df tags api Hdf Hcol Hauth. simpl.
    rewrite (hashtags_node_heap tweepy today data params w df tags api Hdf Hcol Hauth).
    split; [reflexivity |]. split.
    + apply Forall_forall. intros tag _. apply str_replace_strips.
    + split.
      * intros Hne. rewrite lookup_insert_eq. intros [= Heq].
        by apply (df_set_col_changes _ _ _ Hne).
      * intros Hsame. rewrite lookup_insert_eq.
        by rewrite (df_set_col_same _ _ _ Hsame).
  - intros nd Hnd. destruct nd; simpl; try contradiction.
    + apply keeps_timelines.
    + apply keeps_replies.
    + apply keeps_search_users.
    + apply keeps_queries.
Qed.

Lemma hashtags_node_mutates_its_input_witness :
  heap (snd (run_node (Stub.tweepy_ok EndOfItems) Stub.today Hashtags 1%positive ∅
               (Stub.world_of Stub.tags))) !! 1%positive
  = Some (mkDataFrame 2 [("hashtag", [CStr "#sale"; CStr "a#b"]);
                         ("text", [CStr "sale"; CStr "ab"])]) /\
  heap (snd (run_node (Stub.tweepy_ok EndOfItems) Stub.today Queries 1%positive ∅
               (Stub.world_of Stub.one_query)))
  = heap (Stub.world_of Stub.one_query).
Proof.
  split.
  - rewrite (proj1 (proj1 (hashtags_node_mutates_its_input
                             (Stub.tweepy_ok EndOfItems) Stub.today 1%positive ∅
                             (Stub.world_of Stub.tags))
                      Stub.tags ["#sale"; "a#b"]
                      (Some (mkAPI (fun _ => EndOfItems) true))
                      eq_refl eq_refl eq_refl)).
    rewrite lookup_insert_eq. reflexivity.
  - apply (proj2 (hashtags_node_mutates_its_input
                    (Stub.tweepy_ok EndOfItems) Stub.today 1%positive ∅
                    (Stub.world_of Stub.one_query)) Queries).
    discriminate.
Defined.

(** ** The calls the nodes make *)

Lemma calls_of_app evs evs' : calls_of (evs ++ evs') = calls_of evs ++ calls_of evs'.
Proof. unfold calls_of. apply omap_app. Qed.

(** Every run of an extraction function enters it once. *)
Lemma extract_calls api m count tweet_mode n w :
  calls_of (trace (snd (extract api m count tweet_mode n w))) =
  calls_of (trace w) ++ [call_of m].
Proof.
  destruct api as [a |].
  - rewrite extract_run. simpl.
    destruct (comprehension _ _) as [rows | []]; simpl;
      rewrite ?calls_of_app; simpl; by rewrite ?app_nil_r.
  - rewrite extract_run_None. simpl. by rewrite calls_of_app.
Qed.

Lemma hoare_pure {A} (fact : Prop) (P : world -> Prop) (m : M A) Q E :
  (fact -> hoare P m Q E) -> hoare (fun w => fact /\ P w) m Q E.
Proof. intros Hm w [Hfact Hw]. by apply Hm. Qed.

(** [get_auth] only prints. *)
Lemma get_auth_calls tweepy key secret token token_secret w :
  calls_of (trace (snd (get_auth tweepy key secret token token_secret w))) =
  calls_of (trace w).
Proof.
  unfold get_auth. run_monad.
  destruct (tweepy_OAuthHandler tweepy key secret) as [auth | []]; simpl;
    rewrite ?calls_of_app; simpl; rewrite ?app_nil_r; try reflexivity.
  destruct (tweepy_set_access_token tweepy auth token token_secret)
    as [auth' | []]; simpl;
    rewrite ?calls_of_app; simpl; rewrite ?app_nil_r; try reflexivity.
  destruct (tweepy_API tweepy auth' true) as [api | []]; simpl;
    rewrite ?calls_of_app; simpl; rewrite ?app_nil_r; reflexivity.
Qed.

(** The frame every guarded node has: print, authenticate, read the
    table, loop over its rows, build the result. *)
Lemma node_frame_calls tweepy (line : string) data params
    (body : option API -> DataFrame cell -> nat -> list record -> M (list record))
    (names : list string) (f : nat -> list call) df w :
  (forall api, row_makes_calls (body api df) f) ->
  hoare (fun w0 => w0 = w /\ heap w !! data = Some df)
    (print line;;
     api ← auth_from_params tweepy params;
     d ← deref data;
     acc ← for_each (body api d) (iterrows d) [];
     lift (new_DataFrame acc names))
    (fun _ w' => calls_of (trace w') = calls_of (trace w) ++ flat_map f (iterrows df))
    (fun _ _ => True).
Proof.
  intros Hbody.
  set (P := fun w' : world =>
              heap w' !! data = Some df /\ calls_of (trace w') = calls_of (trace w)).
  apply hoare_bind with (Q := fun _ => P).
  { apply hoare_emit. intros w0 [-> Hdf]. split; [exact Hdf |].
    simpl. rewrite calls_of_app. simpl. by rewrite app_nil_r. }
  intros _. apply hoare_bind with (Q := fun _ => P).
  { intros w0 [Hdf Hc]. unfold auth_from_params.
    pose proof (keeps_get_auth tweepy (params !! "twitter_api_consumer_key")
                  (params !! "twitter_api_consumer_secret")
                  (params !! "twitter_api_access_token")
                  (params !! "twitter_api_access_secret") w0) as Hheap.
    pose proof (get_auth_calls tweepy (params !! "twitter_api_consumer_key")
                  (params !! "twitter_api_consumer_secret")
                  (params !! "twitter_api_access_token")
                  (params !! "twitter_api_access_secret") w0) as Hcalls.
    destruct (get_auth _ _ _ _ _ w0) as [[api | e] w1]; [| exact I].
    simpl in *. split; congruence. }
  intros api. apply hoare_bind with (Q := fun d w' => d = df /\ P w').
  { apply hoare_deref. intros w0 [Hdf Hc]. rewrite Hdf. by repeat split. }
  intros d. apply hoare_pure. intros ->.
  apply hoare_bind with
    (Q := fun _ w' =>
            calls_of (trace w') = calls_of (trace w) ++ flat_map f (iterrows df)).
  - eapply hoare_weaken.
    + apply (hoare_for_each
               (fun rest (_ : list record) w' =>
                  heap w' !! data = Some df /\
                  calls_of (trace w') ++ flat_map f rest =
                  calls_of (trace w) ++ flat_map f (iterrows df))
               (fun _ _ => True)).
      intros index rest acc w0 [Hdf Hc].
      specialize (Hbody api index acc w0).
      destruct (body api df index acc w0) as [[acc' | e] w1]; [| exact I].
      destruct Hbody as [Hheap Hcalls]. split; [congruence |].
      rewrite Hcalls, <- app_assoc. exact Hc.
    + intros w0 [Hdf Hc]. split; [exact Hdf | by rewrite Hc].
    + intros acc w0 [_ Hc]. simpl in Hc. by rewrite app_nil_r in Hc.
    + auto.
  - intros acc. apply hoare_lift. intros w0 Hc.
    by destruct (new_DataFrame acc names).
Qed.

Lemma timeline_calls api screen_name user_type count tweet_mode
    exclude_replies include_rts n w :
  calls_of (trace (snd (extract_tweets_from_user_timeline api screen_name
                          user_type count tweet_mode exclude_replies
                          include_rts n w))) =
  calls_of (trace w) ++ [TimelineCall screen_name user_type].
Proof.
  exact (extract_calls api
           (Timeline screen_name user_type exclude_replies include_rts)
           count tweet_mode n w).
Qed.

Lemma replies_calls api username count tweet_mode language result_type until n w :
  calls_of (trace (snd (extract_replies_to_user api username count tweet_mode
                          language result_type until n w))) =
  calls_of (trace w) ++ [RepliesCall username language].
Proof.
  exact (extract_calls api (Replies username language result_type until)
           count tweet_mode n w).
Qed.

Lemma search_calls api query count tweet_mode language result_type until n w :
  calls_of (trace (snd (extract_tweets_from_search api query count tweet_mode
                          language result_type until n w))) =
  calls_of (trace w) ++ [SearchCall query language].
Proof.
  exact (extract_calls api (Search query language result_type until)
           count tweet_mode n w).
Qed.

Lemma hashtag_calls api hashtag count tweet_mode language result_type until n w :
  calls_of (trace (snd (extract_tweets_from_hashtag api hashtag count tweet_mode
                          language result_type until n w))) =
  calls_of (trace w) ++ [HashtagCall hashtag language].
Proof.
  exact (extract_calls api (Hashtag hashtag language result_type until)
           count tweet_mode n w).
Qed.

(** Runs one extraction call inside a loop body: names its outcome and
    records what it did to the heap and to the calls. *)
Ltac run_call keeps_lemma calls_lemma :=
  rewrite bind_run;
  match goal with
  | |- context [match ?run ?w with _ => _ end] =>
      let Hheap := fresh "Hheap" in
      let Hcalls := fresh "Hcalls" in
      pose proof (keeps_lemma w) as Hheap;
      pose proof (calls_lemma w) as Hcalls;
      destruct (run w) as [[? | ?] ?]; simpl in Hheap, Hcalls; [| exact I]
  end.

Lemma user_timelines_row_calls api df :
  row_makes_calls (user_timelines_row api df)
    (fun index =>
       specified_row_calls Timelines (row_key df "username_twitter" index)
         (row_key df "type" index)).
Proof.
  intros index acc w. unfold user_timelines_row, row_key, specified_row_calls.
  rewrite bind_run. unfold lift at 1.
  destruct (row_get df index "username_twitter") as [key | e]; [| exact I].
  destruct (notna key) eqn:Hkey.
  - rewrite bind_run. unfold lift at 1.
    rewrite bind_run. unfold lift at 1.
    destruct (row_get df index "type") as [user_type | e]; [| exact I].
    run_call (keeps_timeline api key user_type 200 "extended" false false 10000)
             (timeline_calls api key user_type 200 "extended" false false 10000).
    split; assumption.
  - split; [reflexivity | by rewrite app_nil_r].
Qed.

Lemma replies_to_users_row_calls today api df :
  row_makes_calls (replies_to_users_row today api df)
    (fun index =>
       specified_row_calls RepliesToUsers (row_key df "username_twitter" index)
         (row_key df "type" index)).
Proof.
  intros index acc w. unfold replies_to_users_row, row_key, specified_row_calls.
  rewrite bind_run. unfold lift at 1.
  destruct (row_get df index "username_twitter") as [key | e]; [| exact I].
  destruct (notna key) eqn:Hkey.
  - rewrite bind_run. unfold lift at 1.
    run_call (keeps_replies_to_user api key 200 "extended" "en" "mixed" today 10000)
             (replies_calls api key 200 "extended" "en" "mixed" today 10000).
    rewrite bind_run. unfold lift at 1.
    run_call (keeps_replies_to_user api key 200 "extended" "es" "mixed" today 10000)
             (replies_calls api key 200 "extended" "es" "mixed" today 10000).
    split; [congruence |].
    rewrite Hcalls0, Hcalls, <- app_assoc. reflexivity.
  - split; [reflexivity | by rewrite app_nil_r].
Qed.

Lemma search_users_row_calls today api df :
  row_makes_calls (search_users_row today api df)
    (fun index =>
       specified_row_calls SearchUsers (row_key df "username_twitter" index)
         (row_key df "type" index)).
Proof.
  intros index acc w. unfold search_users_row, row_key, specified_row_calls.
  rewrite bind_run. unfold lift at 1.
  destruct (row_get df index "username_twitter") as [key | e]; [| exact I].
  destruct (notna key) eqn:Hkey.
  - rewrite bind_run. unfold lift at 1.
    run_call (keeps_search api key 200 "extended" "en" "mixed" today 10000)
             (search_calls api key 200 "extended" "en" "mixed" today 10000).
    rewrite bind_run. unfold lift at 1.
    run_call (keeps_search api key 200 "extended" "es" "mixed" today 10000)
             (search_calls api key 200 "extended" "es" "mixed" today 10000).
    split; [congruence |].
    rewrite Hcalls0, Hcalls, <- app_assoc. reflexivity.
  - split; [reflexivity | by rewrite app_nil_r].
Qed.

(** What the query node does instead, row by row: two [en] calls,
    whatever the key. *)
Lemma queries_row_calls today api df :
  row_makes_calls (queries_row today api df)
    (fun index =>
       [SearchCall (row_key df "query" index) "en";
        SearchCall (row_key df "query" index) "en"]).
Proof.
  intros index acc w. unfold queries_row, row_key.
  rewrite bind_run. unfold lift at 1.
  destruct (row_get df index "query") as [key | e]; [| exact I].
  run_call (keeps_search api key 200 "extended" "en" "mixed" today 10000)
           (search_calls api key 200 "extended" "en" "mixed" today 10000).
  rewrite bind_run. unfold lift at 1.
  run_call (keeps_search api key 200 "extended" "en" "mixed" today 10000)
           (search_calls api key 200 "extended" "en" "mixed" today 10000).
  split; [congruence |].
  rewrite Hcalls0, Hcalls, <- app_assoc. reflexivity.
Qed.

(** The nodes that test the key: whenever the timeline, the
    replies or the search-users node returns its table, the extraction
    calls it made are exactly the specified ones, row by row: none for a
    row whose username is missing, else one (timelines) or an [en] and
    an [es] call (replies, search over users). *)
Theorem guarded_nodes_make_specified_calls tweepy today nd data params w df :
  nd = Timelines \/ nd = RepliesToUsers \/ nd = SearchUsers ->
  heap w !! data = Some df ->
  match run_node tweepy today nd data params w with
  | (Ok _, w') => calls_of (trace w') = calls_of (trace w) ++ specified_calls nd df
  | (Raise _, _) => True
  end.
Proof.
  intros Hnd Hdf.
  destruct Hnd as [-> | [-> | ->]]; simpl.
  - apply (node_frame_calls tweepy _ data params user_timelines_row
             timeline_columns _ df w (fun api => user_timelines_row_calls api df) w).
    by split.
  - apply (node_frame_calls tweepy _ data params (replies_to_users_row today)
             replies_columns _ df w
             (fun api => replies_to_users_row_calls today api df) w).
    by split.
  - apply (node_frame_calls tweepy _ data params (search_users_row today)
             search_users_columns _ df w
             (fun api => search_users_row_calls today api df) w).
    by split.
Qed.

(** The query node, in general: whenever it returns, it has made two
    [en] calls for every row, missing key or not. *)
Theorem queries_node_calls tweepy today data params w df :
  heap w !! data = Some df ->
  match extract_tweets_from_queries tweepy today data params w with
  | (Ok _, w') =>
      calls_of (trace w') =
      calls_of (trace w) ++
      flat_map (fun index => [SearchCall (row_key df "query" index) "en";
                              SearchCall (row_key df "query" index) "en"])
               (iterrows df)
  | (Raise _, _) => True
  end.
Proof.
  intros Hdf.
  apply (node_frame_calls tweepy _ data params (queries_row today)
           queries_columns _ df w (fun api => queries_row_calls today api df) w).
  by split.
Qed.

(** C3: the code breaks the claim. The query node has no test of the
    key: for a table whose only row has a missing query it still calls
    the search extraction, twice, with the missing value as query, where
    the claim (and the test [pd.notna] in the sibling nodes) has the row
    skipped. *)
Theorem queries_node_calls_on_missing_key :
  specified_calls Queries Stub.missing_query = [] /\
  calls_of (trace (snd (extract_tweets_from_queries (Stub.tweepy_ok EndOfItems)
                          Stub.today 1%positive ∅
                          (Stub.world_of Stub.missing_query))))
  = [SearchCall CNone "en"; SearchCall CNone "en"].
Proof. split; reflexivity. Qed.

(** The scenario of C3 on the timeline node: one call, for alice. *)
Lemma timelines_node_skips_missing_user :
  calls_of (trace (snd (extract_user_timelines (Stub.tweepy_ok EndOfItems)
                          1%positive ∅ (Stub.world_of Stub.users))))
  = [TimelineCall (CStr "alice") (CStr "customer")].
Proof. reflexivity. Qed.

(** A missing hashtag is not skipped either: stripping the marker
    raises before any row is looked at, and nothing is extracted. *)
Lemma hashtags_node_raises_on_missing_key :
  let run := extract_tweets_from_hashtags (Stub.tweepy_ok EndOfItems) Stub.today
               1%positive ∅
               (Stub.world_of (mkDataFrame 2 [("hashtag", [CStr "#sale"; CNone])])) in
  fst run = Raise (AttributeError "'NoneType' object has no attribute 'replace'") /\
  calls_of (trace (snd run)) = [].
Proof. split; reflexivity. Qed.

(** C4: the code breaks the claim. For a row with the query [rocq] the
    query node makes two requests, both with language [en]; none asks
    for [es]. *)
Theorem queries_node_requests_en_twice :
  specified_calls Queries Stub.one_query
  = [SearchCall (CStr "rocq") "en"; SearchCall (CStr "rocq") "es"] /\
  trace (snd (extract_tweets_from_queries (Stub.tweepy_ok EndOfItems)
                Stub.today 1%positive ∅ (Stub.world_of Stub.one_query)))
  = [Stdout "Starting extraction of Search Queries";
     Stdout "Successfully authenticated with the Twitter API";
     Call (SearchCall (CStr "rocq") "en");
     Stdout "Extracting search for: rocq";
     Cursor (SearchTweets (CStr "rocq") "en" "extended" "mixed" 200 Stub.today);
     Call (SearchCall (CStr "rocq") "en");
     Stdout "Extracting search for: rocq";
     Cursor (SearchTweets (CStr "rocq") "en" "extended" "mixed" 200 Stub.today)].
Proof. split; reflexivity. Qed.

(** ** The tables the nodes build *)

Lemma imap_fst_names {A} (g : nat -> string -> string * A) names :
  (forall i name, fst (g i name) = name) -> map fst (imap g names) = names.
Proof.
  revert g. induction names as [| name names IH]; intros g Hg; [reflexivity |].
  simpl. f_equal; [apply Hg |]. apply IH. intros i name'. apply Hg.
Qed.

Lemma new_DataFrame_declared data names table :
  new_DataFrame data names = Ok table ->
  map fst (columns table) = names /\ nrows table = length data /\
  Forall (fun column => length (snd column) = nrows table) (columns table).
Proof.
  unfold new_DataFrame.
  match goal with |- context [forallb ?f ?d] => destruct (forallb f d) end;
    [| discriminate].
  intros [= <-]. simpl.
  split; [| split; [reflexivity |]].
  - apply imap_fst_names. reflexivity.
  - apply list.Forall_forall. intros [name column] Hin.
    apply elem_of_lookup_imap in Hin as (i & name' & [= -> ->] & _).
    simpl. apply length_map.
Qed.

Lemma new_DataFrame_fits data names :
  Forall (fun r : record => length r = length names) data ->
  exists table, new_DataFrame data names = Ok table.
Proof.
  intros Hfit. unfold new_DataFrame.
  match goal with
  | |- context [forallb ?f ?d] => assert (forallb f d = true) as ->
  end; [| eexists; reflexivity].
  induction Hfit as [| r data Hr _ IH]; simpl; [reflexivity |].
  rewrite IH, Hr, Nat.eqb_refl. reflexivity.
Qed.

(** The records of a result have the arity of the tuple the mode builds. *)
Lemma extract_arity nd api m count tweet_mode n w :
  node_serves nd m ->
  match fst (extract api m count tweet_mode n w) with
  | Ok (Some rows) => Forall (fun r => length r = length (node_columns nd)) rows
  | _ => True
  end.
Proof.
  intros Hserves.
  destruct (fst (extract api m count tweet_mode n w)) as [[rows |] | e] eqn:Hrun;
    try exact I.
  destruct (extract_Ok_inv _ _ _ _ _ _ _ Hrun) as (a & ts & _ & _ & Hall).
  eapply Forall2_right; [exact Hall |].
  intros tweet r Hr. simpl in Hr.
  by destruct (tuple_of_named_record nd m tweet r Hserves Hr).
Qed.

Lemma extend_if_any_arity (fits : record -> Prop) acc tweets :
  Forall fits acc ->
  match tweets with Some rows => Forall fits rows | None => True end ->
  Forall fits (extend_if_any acc tweets).
Proof.
  intros Hacc Hrows. destruct tweets as [rows |]; [| exact Hacc].
  unfold extend_if_any. destruct (0 <? length rows)%nat; [| exact Hacc].
  by apply Forall_app.
Qed.

Lemma timeline_arity api screen_name user_type count tweet_mode
    exclude_replies include_rts n w :
  match fst (extract_tweets_from_user_timeline api screen_name user_type count
               tweet_mode exclude_replies include_rts n w) with
  | Ok (Some rows) => Forall (fun r => length r = 16%nat) rows
  | _ => True
  end.
Proof.
  exact (extract_arity Timelines api
           (Timeline screen_name user_type exclude_replies include_rts)
           count tweet_mode n w I).
Qed.

Lemma replies_arity api username count tweet_mode language result_type until n w :
  match fst (extract_replies_to_user api username count tweet_mode language
               result_type until n w) with
  | Ok (Some rows) => Forall (fun r => length r = 17%nat) rows
  | _ => True
  end.
Proof.
  exact (extract_arity RepliesToUsers api
           (Replies username language result_type until) count tweet_mode n w I).
Qed.

Lemma search_arity api query count tweet_mode language result_type until n w :
  match fst (extract_tweets_from_search api query count tweet_mode language
               result_type until n w) with
  | Ok (Some rows) => Forall (fun r => length r = 17%nat) rows
  | _ => True
  end.
Proof.
  exact (extract_arity SearchUsers api
           (Search query language result_type until) count tweet_mode n w I).
Qed.

Lemma hashtag_arity api hashtag count tweet_mode language result_type until n w :
  match fst (extract_tweets_from_hashtag api hashtag count tweet_mode language
               result_type until n w) with
  | Ok (Some rows) => Forall (fun r => length r = 17%nat) rows
  | _ => True
  end.
Proof.
  exact (extract_arity Hashtags api
           (Hashtag hashtag language result_type until) count tweet_mode n w I).
Qed.

(** Runs one extraction call inside a loop body and records the arity
    of what it returned. *)
Ltac run_fetch arity_lemma :=
  rewrite bind_run;
  match goal with
  | |- context [match ?run ?w with _ => _ end] =>
      let Harity := fresh "Harity" in
      pose proof (arity_lemma w) as Harity;
      destruct (run w) as [[? | ?] ?]; simpl in Harity; [| exact I]
  end.

Ltac read_cell key :=
  rewrite bind_run; unfold lift at 1;
  match goal with
  | |- context [row_get ?df ?index ?name] =>
      destruct (row_get df index name) as [key | ?]; [| exact I]
  end.

(** Every loop body keeps the list it builds within the arity of the
    node's table. *)
Lemma node_row_keeps_arity today nd api df index acc w :
  Forall (fun r => length r = length (node_columns nd)) acc ->
  match node_row today nd api df index acc w with
  | (Ok acc', _) => Forall (fun r => length r = length (node_columns nd)) acc'
  | (Raise _, _) => True
  end.
Proof.
  intros Hacc. destruct nd; simpl node_row.
  - unfold user_timelines_row. read_cell key.
    destruct (notna _); [| exact Hacc].
    rewrite bind_run. unfold lift at 1. read_cell user_type.
    run_fetch (timeline_arity api key user_type 200 "extended" false false 10000).
    by apply extend_if_any_arity.
  - unfold replies_to_users_row. read_cell key.
    destruct (notna _); [| exact Hacc].
    rewrite bind_run. unfold lift at 1.
    run_fetch (replies_arity api key 200 "extended" "en" "mixed" today 10000).
    rewrite bind_run. unfold lift at 1.
    run_fetch (replies_arity api key 200 "extended" "es" "mixed" today 10000).
    by repeat apply extend_if_any_arity.
  - unfold search_users_row. read_cell key.
    destruct (notna _); [| exact Hacc].
    rewrite bind_run. unfold lift at 1.
    run_fetch (search_arity api key 200 "extended" "en" "mixed" today 10000).
    rewrite bind_run. unfold lift at 1.
    run_fetch (search_arity api key 200 "extended" "es" "mixed" today 10000).
    by repeat apply extend_if_any_arity.
  - unfold hashtags_row. read_cell key.
    destruct (notna _); [| exact Hacc].
    rewrite bind_run. unfold lift at 1.
    run_fetch (hashtag_arity api key 200 "extended" "en" "mixed" today 10000).
    rewrite bind_run. unfold lift at 1.
    run_fetch (hashtag_arity api key 200 "extended" "es" "mixed" today 10000).
    by repeat apply extend_if_any_arity.
  - unfold queries_row. read_cell key.
    run_fetch (search_arity api key 200 "extended" "en" "mixed" today 10000).
    rewrite bind_run. unfold lift at 1.
    run_fetch (search_arity api key 200 "extended" "en" "mixed" today 10000).
    by repeat apply extend_if_any_arity.
Qed.

(** Whenever the loop of a node completes, every record it gathered has
    one field per declared column, so building the table succeeds. *)
Lemma node_loop_builds_a_table today nd api df rows w :
  match for_each (node_row today nd api df) rows [] w with
  | (Ok acc, _) =>
      Forall (fun r => length r = length (node_columns nd)) acc /\
      exists table,
        new_DataFrame acc (node_columns nd) = Ok table /\
        map fst (columns table) = node_columns nd /\
        nrows table = length acc
  | (Raise _, _) => True
  end.
Proof.
  pose proof (hoare_for_each
                (fun (_ : list nat) acc (_ : world) =>
                   Forall (fun r => length r = length (node_columns nd)) acc)
                (fun _ _ => True)
                (node_row today nd api df) rows []) as Hloop.
  specialize (Hloop (fun index rest acc w' Hacc =>
                       node_row_keeps_arity today nd api df index acc w' Hacc)
                w (List.Forall_nil _)).
  destruct (for_each _ rows [] w) as [[acc | e] w']; [| exact I].
  split; [exact Hloop |].
  destruct (new_DataFrame_fits acc (node_columns nd) Hloop) as [table Htable].
  exists table. split; [exact Htable |].
  destruct (new_DataFrame_declared _ _ _ Htable) as (Hnames & Hrows & _).
  by split.
Qed.

(** * Further properties of the code *)

(** ** A fetch that runs to its end *)

(** A fetch that ends without an error, item by item. *)
Lemma extract_runs_to_the_end a m count tweet_mode n ts w :
  fetched a m count tweet_mode n = stream_of ts EndOfItems ->
  Forall located ts ->
  exists rows,
    Forall2 (fun tweet r => tuple_of m tweet = Ok r) ts rows /\
    length rows = length ts /\
    extract (Some a) m count tweet_mode n w =
      (Ok (Some rows), logged w (prologue m count tweet_mode)).
Proof.
  intros Hfetch Hts.
  destruct (apply_located m ts Hts) as (rows & Hrows & Hlen).
  assert (comprehension (tuple_of m) (fetched a m count tweet_mode n) = Ok rows)
    as Hc.
  { rewrite Hfetch, comprehension_stream_of, Hrows. simpl.
    unfold mbind, result_bind. simpl. by rewrite app_nil_r. }
  exists rows. split; [| split; [exact Hlen |]].
  - destruct (comprehension_Ok_inv _ _ _ Hc) as (ts' & Hts' & Hall).
    rewrite Hfetch in Hts'.
    assert (ts' = ts) as ->; [| exact Hall].
    clear -Hts'. revert ts' Hts'.
    induction ts as [| t ts IH]; intros [| t' ts'] H; simpl in H;
      try discriminate; [reflexivity |].
    injection H as -> H. f_equal. by apply IH.
  - rewrite extract_run, Hc. reflexivity.
Qed.

(** When the fetch ends without an error and every item's author has a
    location, the extraction function returns one record per item, in
    the order fetched, having printed only its banner. *)
Theorem extract_completes a m count tweet_mode n ts w :
  fetched a m count tweet_mode n = stream_of ts EndOfItems ->
  Forall located ts ->
  exists rows,
    Forall2 (fun tweet r => tuple_of m tweet = Ok r) ts rows /\
    length rows = length ts /\
    extract (Some a) m count tweet_mode n w =
      (Ok (Some rows), logged w (prologue m count tweet_mode)).
Proof. exact (extract_runs_to_the_end a m count tweet_mode n ts w). Qed.

Lemma extract_completes_witness :
  exists rows,
    Forall2 (fun tweet r =>
               tuple_of (Search (CStr "rocq") "en" "mixed" Stub.today) tweet = Ok r)
            [Stub.hola; Stub.hola] rows /\
    length rows = 2%nat /\
    extract (Some (Stub.api_const (Item Stub.hola (Item Stub.hola EndOfItems))))
      (Search (CStr "rocq") "en" "mixed" Stub.today) 200 "extended" 10000 Stub.w0 =
      (Ok (Some rows),
       logged Stub.w0
         (prologue (Search (CStr "rocq") "en" "mixed" Stub.today) 200 "extended")).
Proof.
  apply (extract_completes
           (Stub.api_const (Item Stub.hola (Item Stub.hola EndOfItems)))
           (Search (CStr "rocq") "en" "mixed" Stub.today) 200 "extended" 10000
           [Stub.hola; Stub.hola] Stub.w0).
  - reflexivity.
  - repeat constructor; by exists "Lima".
Defined.

(** ** From a node to its loop *)

(** A node whose authentication does not raise gets to its loop: it
    has printed, made no call yet, and the caller's table is as the
    preparation left it. *)
Lemma node_reaches_loop tweepy today nd data params w df df' api :
  heap w !! data = Some df ->
  loop_frame nd df = Ok df' ->
  fst (auth_from_params tweepy params w) = Ok api ->
  exists w',
    heap w' = heap_after nd data df' (heap w) /\
    calls_of (trace w') = calls_of (trace w) /\
    run_node tweepy today nd data params w = loop_and_table today nd api df' w'.
Proof.
  intros Hdf Hframe Hauth.
  remember (logged w [Stdout (node_banner nd)]) as w1 eqn:Hw1.
  pose proof (keeps_get_auth tweepy
                (params !! "twitter_api_consumer_key")
                (params !! "twitter_api_consumer_secret")
                (params !! "twitter_api_access_token")
                (params !! "twitter_api_access_secret") w1) as Hkeep.
  pose proof (get_auth_calls tweepy
                (params !! "twitter_api_consumer_key")
                (params !! "twitter_api_consumer_secret")
                (params !! "twitter_api_access_token")
                (params !! "twitter_api_access_secret") w1) as Hcalls.
  assert (fst (auth_from_params tweepy params w1) = Ok api) as Hauth1.
  { rewrite <- Hauth. apply get_auth_fst_indep. }
  fold (auth_from_params tweepy params) in Hkeep, Hcalls.
  assert (calls_of (trace w1) = calls_of (trace w)) as Hc1.
  { subst w1. simpl. rewrite calls_of_app. simpl. by rewrite app_nil_r. }
  assert (heap w1 = heap w) as Hh1 by (by subst w1).
  destruct (auth_from_params tweepy params w1) as [[api' | e] w2] eqn:Hrun;
    cbn [fst snd] in Hauth1, Hkeep, Hcalls; [| discriminate].
  injection Hauth1 as ->.
  assert (heap w2 !! data = Some df) as Hdf2 by (by rewrite Hkeep, Hh1).
  destruct nd; simpl in Hframe; cbn [run_node heap_after node_banner] in *.
  1-3, 5: injection Hframe as <-.
  1-4: exists w2; split; [congruence | split; [congruence |]];
       unfold extract_user_timelines, extract_replies_to_users,
         extract_search_users, extract_tweets_from_queries;
       rewrite bind_run; unfold print, emit at 1; rewrite <- Hw1;
       rewrite bind_run, Hrun;
       rewrite bind_run; unfold deref at 1; rewrite Hdf2;
       reflexivity.
  unfold mbind, result_bind in Hframe.
  destruct (df_col df "hashtag") as [series |] eqn:Hseries; [| discriminate].
  destruct (apply _ series) as [text |] eqn:Htext; [| discriminate].
  injection Hframe as <-.
  exists (mkWorld (<[data := df_set_col "text" text df]> (heap w2)) (trace w2)).
  simpl. split; [congruence | split; [congruence |]].
  unfold extract_tweets_from_hashtags.
  rewrite bind_run. unfold print, emit at 1. rewrite <- Hw1.
  rewrite bind_run, Hrun.
  rewrite bind_run. unfold deref at 1. rewrite Hdf2.
  rewrite bind_run. unfold lift at 1. rewrite Hseries.
  rewrite bind_run. unfold lift at 1. rewrite Htext.
  rewrite bind_run. unfold deref at 1. rewrite Hdf2.
  rewrite bind_run. unfold store at 1.
  rewrite bind_run. unfold deref at 1. simpl heap.
  rewrite lookup_insert_eq. reflexivity.
Qed.

(** ** Calls that come back *)





Lemma row_get_key df name column index :
  df_col df name = Ok column -> row_get df index name = Ok (row_key df name index).
Proof.
  intros Hcol. unfold row_key, row_get. rewrite Hcol. reflexivity.
Qed.





(** The frame the hashtag node loops over has its [text] column. *)
Lemma loop_frame_has_columns nd df df' :
  loop_frame nd df = Ok df' ->
  (nd <> Hashtags -> has_columns nd df) ->
  has_columns nd df'.
Proof.
  intros Hframe Hcols. destruct nd; simpl in Hframe;
    try (injection Hframe as <-; by apply Hcols).
  unfold mbind, result_bind in Hframe.
  destruct (df_col df "hashtag") as [series |]; [| discriminate].
  destruct (apply _ series) as [text |]; [| discriminate].
  injection Hframe as <-.
  split; [| discriminate].
  exists text. unfold df_col, df_set_col. simpl. by rewrite assoc_assoc_set.
Qed.


(** ** A node without a handle *)






(** ** An empty table *)

Lemma loop_frame_nrows nd df df' : loop_frame nd df = Ok df' -> nrows df' = nrows df.
Proof.
  destruct nd; simpl; try (by intros [= <-]).
  unfold mbind, result_bind.
  destruct (df_col df "hashtag") as [series |]; [| discriminate].
  destruct (apply _ series) as [text |]; [| discriminate].
  by intros [= <-].
Qed.

(** Once [get_auth] has returned, with a handle or with [None], a table
    without rows gives a table without rows, with the declared columns
    and no call made. The hashtag node reads the [hashtag] column before
    its loop, so for that node the column, empty as it is, must be
    there. *)
Theorem node_on_empty_table tweepy today nd data params w df api :
  heap w !! data = Some df ->
  nrows df = 0%nat ->
  (nd = Hashtags -> df_col df "hashtag" = Ok []) ->
  fst (auth_from_params tweepy params w) = Ok api ->
  exists table,
    fst (run_node tweepy today nd data params w) = Ok table /\
    nrows table = 0%nat /\
    columns table = map (fun name => (name, [])) (node_columns nd) /\
    calls_of (trace (snd (run_node tweepy today nd data params w))) =
      calls_of (trace w).
Proof.
  intros Hdf Hrows Htags Hauth.
  assert (exists df', loop_frame nd df = Ok df') as [df' Hframe].
  { destruct nd; simpl; try (by eexists).
    rewrite (Htags eq_refl). by eexists. }
  destruct (node_reaches_loop tweepy today nd data params w df df' api
              Hdf Hframe Hauth) as (w1 & _ & Hcalls1 & ->).
  unfold loop_and_table, iterrows.
  rewrite (loop_frame_nrows nd df df' Hframe), Hrows.
  eexists. split; [reflexivity |].
  split; [reflexivity |]. split; [by destruct nd | exact Hcalls1].
Qed.

(** ** The nodes on the test doubles *)


Lemma users_have_columns nd :
  nd = Timelines \/ nd = RepliesToUsers \/ nd = SearchUsers ->
  has_columns nd Stub.users.
Proof.
  intros [-> | [-> | ->]]; (split; [| intros _]); eexists; reflexivity.
Qed.



Lemma node_on_empty_table_witness :
  (exists table,
     fst (run_node Stub.tweepy_refused Stub.today SearchUsers 1%positive ∅
            (Stub.world_of Stub.no_users)) = Ok table /\
     nrows table = 0%nat /\
     columns table = map (fun name => (name, [])) (node_columns SearchUsers) /\
     calls_of (trace (snd (run_node Stub.tweepy_refused Stub.today SearchUsers
                             1%positive ∅ (Stub.world_of Stub.no_users)))) = []) /\
  (exists table,
     fst (run_node (tweepy_library Stub.service_empty) Stub.today Hashtags
            1%positive Stub.params (Stub.world_of Stub.no_tags)) = Ok table /\
     nrows table = 0%nat /\
     columns table = map (fun name => (name, [])) (node_columns Hashtags) /\
     calls_of (trace (snd (run_node (tweepy_library Stub.service_empty) Stub.today
                             Hashtags 1%positive Stub.params
                             (Stub.world_of Stub.no_tags)))) = []).
Proof.
  split.
  - apply (node_on_empty_table Stub.tweepy_refused Stub.today SearchUsers
             1%positive ∅ (Stub.world_of Stub.no_users) Stub.no_users None).
    + reflexivity.
    + reflexivity.
    + discriminate.
    + reflexivity.
  - apply (node_on_empty_table (tweepy_library Stub.service_empty) Stub.today
             Hashtags 1%positive Stub.params (Stub.world_of Stub.no_tags)
             Stub.no_tags (Some (mkAPI (fun _ => EndOfItems) true))).
    + reflexivity.
    + reflexivity.
    + reflexivity.
    + reflexivity.
Defined.

(** ** A node that does not get to its loop *)

(** An exception out of the authentication ends the node. *)
Lemma auth_raise_stops_node tweepy today nd data params w e :
  fst (auth_from_params tweepy params w) = Raise e ->
  fst (run_node tweepy today nd data params w) = Raise e /\
  calls_of (trace (snd (run_node tweepy today nd data params w))) =
    calls_of (trace w) /\
  heap (snd (run_node tweepy today nd data params w)) = heap w.
Proof.
  intros Hauth.
  remember (logged w [Stdout (node_banner nd)]) as w1 eqn:Hw1.
  pose proof (keeps_get_auth tweepy
                (params !! "twitter_api_consumer_key")
                (params !! "twitter_api_consumer_secret")
                (params !! "twitter_api_access_token")
                (params !! "twitter_api_access_secret") w1) as Hkeep.
  pose proof (get_auth_calls tweepy
                (params !! "twitter_api_consumer_key")
                (params !! "twitter_api_consumer_secret")
                (params !! "twitter_api_access_token")
                (params !! "twitter_api_access_secret") w1) as Hcalls.
  assert (fst (auth_from_params tweepy params w1) = Raise e) as Hauth1.
  { rewrite <- Hauth. apply get_auth_fst_indep. }
  fold (auth_from_params tweepy params) in Hkeep, Hcalls.
  assert (calls_of (trace w1) = calls_of (trace w)) as Hc1.
  { subst w1. simpl. rewrite calls_of_app. simpl. by rewrite app_nil_r. }
  assert (heap w1 = heap w) as Hh1 by (by subst w1).
  destruct (auth_from_params tweepy params w1) as [[api | e'] w2] eqn:Hrun;
    cbn [fst snd] in Hauth1, Hkeep, Hcalls; [discriminate |].
  injection Hauth1 as ->.
  assert (run_node tweepy today nd data params w = (Raise e, w2)) as ->.
  { destruct nd; cbn [run_node node_banner] in *;
      unfold extract_user_timelines, extract_replies_to_users,
        extract_search_users, extract_tweets_from_hashtags,
        extract_tweets_from_queries;
      rewrite bind_run; unfold print, emit at 1; rewrite <- Hw1;
      rewrite bind_run, Hrun; reflexivity. }
  cbn [fst snd]. split; [reflexivity | split; congruence].
Qed.

(** The handler of [get_auth] is for Tweepy errors only: any other
    exception of one of its three steps leaves [get_auth] as it was
    raised, and nothing is printed for it. *)
Lemma get_auth_passes_other_exceptions tweepy key secret token token_secret e w :
  auth_raises tweepy key secret token token_secret e ->
  (forall msg, e <> TweepyException msg) ->
  fst (get_auth tweepy key secret token token_secret w) = Raise e /\
  forall line,
    In (Stdout line) (trace (snd (get_auth tweepy key secret token token_secret w))) ->
    In (Stdout line) (trace w) \/
    line = "Successfully authenticated with the Twitter API".
Proof.
  intros Hraises Hother. unfold auth_raises in Hraises.
  unfold get_auth. run_monad.
  destruct (tweepy_OAuthHandler tweepy key secret) as [auth | e1]; simpl.
  - destruct (tweepy_set_access_token tweepy auth token token_secret)
      as [auth' | e2]; simpl.
    + rewrite Hraises. simpl.
      destruct e as [msg | | | | |]; try (by destruct (Hother msg)); simpl;
        (split; [reflexivity |]); intros line Hin;
        apply in_app_or in Hin as [Hin | [[= <-] | []]]; auto.
    + subst e2.
      destruct e as [msg | | | | |]; try (by destruct (Hother msg)); simpl;
        (split; [reflexivity |]); intros line Hin; auto.
  - subst e1.
    destruct e as [msg | | | | |]; try (by destruct (Hother msg)); simpl;
      (split; [reflexivity |]); intros line Hin; auto.
Qed.

(** An exception other than a Tweepy error that a step of the
    authentication raises is not caught anywhere: [get_auth] passes it
    on and so does the node, which raises it having made no call and
    left the caller's table alone. *)
Theorem node_stops_when_auth_raises tweepy today nd data params w e :
  auth_raises tweepy
    (params !! "twitter_api_consumer_key")
    (params !! "twitter_api_consumer_secret")
    (params !! "twitter_api_access_token")
    (params !! "twitter_api_access_secret") e ->
  (forall msg, e <> TweepyException msg) ->
  fst (auth_from_params tweepy params w) = Raise e /\
  fst (run_node tweepy today nd data params w) = Raise e /\
  calls_of (trace (snd (run_node tweepy today nd data params w))) =
    calls_of (trace w) /\
  heap (snd (run_node tweepy today nd data params w)) = heap w.
Proof.
  intros Hraises Hother.
  assert (fst (auth_from_params tweepy params w) = Raise e) as Hauth.
  { apply (get_auth_passes_other_exceptions tweepy _ _ _ _ e w Hraises Hother). }
  split; [exact Hauth |].
  exact (auth_raise_stops_node tweepy today nd data params w e Hauth).
Qed.

(** The failure of the preparation of the table stops the node in the
    same way. *)
Lemma node_stops_before_loop tweepy today nd data params w df api e :
  heap w !! data = Some df ->
  loop_frame nd df = Raise e ->
  fst (auth_from_params tweepy params w) = Ok api ->
  fst (run_node tweepy today nd data params w) = Raise e /\
  calls_of (trace (snd (run_node tweepy today nd data params w))) =
    calls_of (trace w) /\
  heap (snd (run_node tweepy today nd data params w)) = heap w.
Proof.
  intros Hdf Hframe Hauth.
  destruct nd; simpl in Hframe; try discriminate.
  remember (logged w [Stdout (node_banner Hashtags)]) as w1 eqn:Hw1.
  pose proof (keeps_get_auth tweepy
                (params !! "twitter_api_consumer_key")
                (params !! "twitter_api_consumer_secret")
                (params !! "twitter_api_access_token")
                (params !! "twitter_api_access_secret") w1) as Hkeep.
  pose proof (get_auth_calls tweepy
                (params !! "twitter_api_consumer_key")
                (params !! "twitter_api_consumer_secret")
                (params !! "twitter_api_access_token")
                (params !! "twitter_api_access_secret") w1) as Hcalls.
  assert (fst (auth_from_params tweepy params w1) = Ok api) as Hauth1.
  { rewrite <- Hauth. apply get_auth_fst_indep. }
  fold (auth_from_params tweepy params) in Hkeep, Hcalls.
  assert (calls_of (trace w1) = calls_of (trace w)) as Hc1.
  { subst w1. simpl. rewrite calls_of_app. simpl. by rewrite app_nil_r. }
  assert (heap w1 = heap w) as Hh1 by (by subst w1).
  destruct (auth_from_params tweepy params w1) as [[api' | e'] w2] eqn:Hrun;
    cbn [fst snd] in Hauth1, Hkeep, Hcalls; [| discriminate].
  injection Hauth1 as ->.
  assert (heap w2 !! data = Some df) as Hdf2 by (by rewrite Hkeep, Hh1).
  assert (run_node tweepy today Hashtags data params w = (Raise e, w2)) as ->.
  { cbn [run_node node_banner] in *. unfold extract_tweets_from_hashtags.
    rewrite bind_run. unfold print, emit at 1. rewrite <- Hw1.
    rewrite bind_run, Hrun.
    rewrite bind_run. unfold deref at 1. rewrite Hdf2.
    rewrite bind_run. unfold lift at 1.
    unfold mbind, result_bind in Hframe.
    destruct (df_col df "hashtag") as [series | e1].
    - rewrite bind_run. unfold lift at 1.
      destruct (apply _ series) as [text | e2]; [discriminate |].
      by injection Hframe as ->.
    - by injection Hframe as ->. }
  cbn [fst snd]. split; [reflexivity | split; congruence].
Qed.

(** A missing hashtag is not passed over: stripping the markers raises
    [AttributeError] before the loop, so the hashtag node extracts
    nothing, for any row, and writes no column. *)
Theorem hashtags_node_stops_on_missing_tag tweepy today data params w df
    series api :
  heap w !! data = Some df ->
  df_col df "hashtag" = Ok series ->
  Exists (fun c => notna c = false) series ->
  fst (auth_from_params tweepy params w) = Ok api ->
  (exists msg,
     fst (run_node tweepy today Hashtags data params w) =
       Raise (AttributeError msg)) /\
  calls_of (trace (snd (run_node tweepy today Hashtags data params w))) =
    calls_of (trace w) /\
  heap (snd (run_node tweepy today Hashtags data params w)) = heap w.
Proof.
  intros Hdf Hseries Hmissing Hauth.
  destruct (apply_cell_replace_missing series Hmissing) as [msg Hmsg].
  assert (loop_frame Hashtags df = Raise (AttributeError msg)) as Hframe.
  { simpl. rewrite Hseries. simpl. by rewrite Hmsg. }
  destruct (node_stops_before_loop tweepy today Hashtags data params w df api _
              Hdf Hframe Hauth) as (Hrun & Hcalls & Hheap).
  split; [by exists msg | by split].
Qed.

Lemma hashtags_node_stops_on_missing_tag_witness :
  (exists msg,
     fst (run_node (Stub.tweepy_ok EndOfItems) Stub.today Hashtags 1%positive ∅
            (Stub.world_of (mkDataFrame 2 [("hashtag", [CStr "#sale"; CNaN])])))
     = Raise (AttributeError msg)) /\
  calls_of (trace (snd (run_node (Stub.tweepy_ok EndOfItems) Stub.today Hashtags
                          1%positive ∅
                          (Stub.world_of
                             (mkDataFrame 2 [("hashtag", [CStr "#sale"; CNaN])])))))
  = [].
Proof.
  destruct (hashtags_node_stops_on_missing_tag (Stub.tweepy_ok EndOfItems)
              Stub.today 1%positive ∅
              (Stub.world_of (mkDataFrame 2 [("hashtag", [CStr "#sale"; CNaN])]))
              (mkDataFrame 2 [("hashtag", [CStr "#sale"; CNaN])])
              [CStr "#sale"; CNaN]
              (Some (mkAPI (fun _ => EndOfItems) true))
              eq_refl eq_refl
              (Exists_cons_tl _ (Exists_cons_hd _ CNaN [] eq_refl))
              eq_refl)
    as (Hrun & Hcalls & _).
  split; [exact Hrun | exact Hcalls].
Defined.

Lemma node_stops_when_auth_raises_witness :
  fst (auth_from_params (tweepy_library Stub.service_empty) ∅
         (Stub.world_of Stub.one_query)) =
    Raise (TypeError "Consumer key must be string or bytes, not NoneType") /\
  fst (run_node (tweepy_library Stub.service_empty) Stub.today Queries
         1%positive ∅ (Stub.world_of Stub.one_query)) =
    Raise (TypeError "Consumer key must be string or bytes, not NoneType") /\
  calls_of (trace (snd (run_node (tweepy_library Stub.service_empty) Stub.today
                          Queries 1%positive ∅
                          (Stub.world_of Stub.one_query)))) = [] /\
  heap (snd (run_node (tweepy_library Stub.service_empty) Stub.today Queries
               1%positive ∅ (Stub.world_of Stub.one_query))) =
    heap (Stub.world_of Stub.one_query).
Proof.
  apply (node_stops_when_auth_raises (tweepy_library Stub.service_empty)
           Stub.today Queries 1%positive ∅ (Stub.world_of Stub.one_query)
           (TypeError "Consumer key must be string or bytes, not NoneType")).
  - reflexivity.
  - discriminate.
Defined.

(** ** The calls of any node that returns *)

Lemma hashtags_row_calls today api df :
  row_makes_calls (hashtags_row today api df)
    (fun index =>
       specified_row_calls Hashtags (row_key df "text" index)
         (row_key df "type" index)).
Proof.
  intros index acc w. unfold hashtags_row, row_key, specified_row_calls.
  rewrite bind_run. unfold lift at 1.
  destruct (row_get df index "text") as [key | e]; [| exact I].
  destruct (notna key) eqn:Hkey.
  - rewrite bind_run. unfold lift at 1.
    run_call (keeps_hashtag api key 200 "extended" "en" "mixed" today 10000)
             (hashtag_calls api key 200 "extended" "en" "mixed" today 10000).
    rewrite bind_run. unfold lift at 1.
    run_call (keeps_hashtag api key 200 "extended" "es" "mixed" today 10000)
             (hashtag_calls api key 200 "extended" "es" "mixed" today 10000).
    split; [congruence |].
    rewrite Hcalls0, Hcalls, <- app_assoc. reflexivity.
  - split; [reflexivity | by rewrite app_nil_r].
Qed.

Lemma node_row_makes_calls today nd api df' :
  row_makes_calls (node_row today nd api df')
    (fun index =>
       row_calls nd (row_key df' (loop_key_column nd) index)
         (row_key df' "type" index)).
Proof.
  destruct nd; cbn [node_row row_calls loop_key_column key_column].
  - apply user_timelines_row_calls.
  - apply replies_to_users_row_calls.
  - apply search_users_row_calls.
  - apply hashtags_row_calls.
  - apply queries_row_calls.
Qed.

(** The calls of a node that returns are those of its loop. *)
Lemma node_calls_if_returned tweepy today nd data params w df df' :
  heap w !! data = Some df ->
  loop_frame nd df = Ok df' ->
  match run_node tweepy today nd data params w with
  | (Ok _, w') => calls_of (trace w') = calls_of (trace w) ++ loop_calls nd df'
  | (Raise _, _) => True
  end.
Proof.
  intros Hdf Hframe.
  destruct (fst (auth_from_params tweepy params w)) as [api | e] eqn:Hauth.
  - destruct (node_reaches_loop tweepy today nd data params w df df' api
                Hdf Hframe Hauth) as (w1 & _ & Hcalls1 & ->).
    unfold loop_and_table. rewrite bind_run.
    pose proof (hoare_for_each
                  (fun rest (_ : list record) w' =>
                     calls_of (trace w') ++
                     flat_map (fun index =>
                                 row_calls nd (row_key df' (loop_key_column nd) index)
                                   (row_key df' "type" index)) rest =
                     calls_of (trace w) ++ loop_calls nd df')
                  (fun _ _ => True)
                  (node_row today nd api df') (iterrows df') []) as Hloop.
    assert (match for_each (node_row today nd api df') (iterrows df') [] w1 with
            | (Ok _, w') => calls_of (trace w') = calls_of (trace w) ++ loop_calls nd df'
            | (Raise _, _) => True
            end) as Hdone.
    { assert (forall index rest acc,
                hoare (fun w' =>
                         calls_of (trace w') ++
                         flat_map (fun index =>
                                     row_calls nd (row_key df' (loop_key_column nd) index)
                                       (row_key df' "type" index)) (index :: rest) =
                         calls_of (trace w) ++ loop_calls nd df')
                  (node_row today nd api df' index acc)
                  (fun _ w' =>
                     calls_of (trace w') ++
                     flat_map (fun index =>
                                 row_calls nd (row_key df' (loop_key_column nd) index)
                                   (row_key df' "type" index)) rest =
                     calls_of (trace w) ++ loop_calls nd df')
                  (fun _ _ => True)) as Hbody.
      { intros index rest acc w0 Hw0.
        pose proof (node_row_makes_calls today nd api df' index acc w0) as Hrow.
        destruct (node_row today nd api df' index acc w0) as [[acc' | e] w'];
          [| exact I].
        destruct Hrow as [_ Hrow]. rewrite Hrow, <- app_assoc. exact Hw0. }
      specialize (Hloop Hbody w1).
      destruct (for_each _ (iterrows df') [] w1) as [[acc | e] w2]; [| exact I].
      rewrite <- (app_nil_r (calls_of (trace w2))).
      apply Hloop. by rewrite Hcalls1. }
    destruct (for_each _ (iterrows df') [] w1) as [[acc | e] w2]; [| exact I].
    unfold lift. by destruct (new_DataFrame acc (node_columns nd)).
  - destruct (auth_raise_stops_node tweepy today nd data params w e Hauth)
      as (Hrun & _).
    destruct (run_node tweepy today nd data params w) as [[table | e'] w'];
      [discriminate | exact I].
Qed.

(** Whenever a node returns a table, the extraction calls it has made
    are those of its loop, row by row: for the timeline node one call
    per row with a username, for the replies, search-users and hashtag
    nodes an [en] and an [es] call per row with a key, for the query
    node two [en] calls per row. *)
Theorem node_calls_when_it_returns tweepy today nd data params w df df' :
  heap w !! data = Some df ->
  loop_frame nd df = Ok df' ->
  match run_node tweepy today nd data params w with
  | (Ok _, w') => calls_of (trace w') = calls_of (trace w) ++ loop_calls nd df'
  | (Raise _, _) => True
  end.
Proof. exact (node_calls_if_returned tweepy today nd data params w df df'). Qed.

Lemma node_calls_when_it_returns_witness :
  calls_of (trace (snd (run_node (Stub.tweepy_ok EndOfItems) Stub.today Hashtags
                          1%positive ∅ (Stub.world_of Stub.tags)))) =
  [HashtagCall (CStr "sale") "en"; HashtagCall (CStr "sale") "es";
   HashtagCall (CStr "ab") "en"; HashtagCall (CStr "ab") "es"].
Proof.
  exact (node_calls_when_it_returns (Stub.tweepy_ok EndOfItems) Stub.today
           Hashtags 1%positive ∅ (Stub.world_of Stub.tags) Stub.tags
           (with_text Stub.tags ["#sale"; "a#b"]) eq_refl eq_refl).
Defined.

(** ** An item without a location, in a node *)

(** An exception raised for one row ends the loop: nothing catches it
    between the rows. *)
Lemma for_each_raises {A S} (body : A -> S -> M S) x xs :
  In x xs ->
  (forall acc w, exists e w', body x acc w = (Raise e, w')) ->
  forall acc w, exists e w', for_each body xs acc w = (Raise e, w').
Proof.
  intros Hin Hx. induction xs as [| y xs IH]; [destruct Hin |].
  intros acc w. cbn [for_each]. rewrite bind_run.
  destruct Hin as [-> | Hin].
  - destruct (Hx acc w) as (e & w' & ->). by exists e, w'.
  - destruct (body y acc w) as [[acc' | e] w'].
    + by apply IH.
    + by exists e, w'.
Qed.

(** The call [c] as a node makes it, when the first item that does not
    flatten is met. *)
Lemma call_raises_on_nowhere a today c pre tweet rest w :
  fetched a (mode_of_call today c) 200 "extended" 10000 =
    stream_of pre (Item tweet rest) ->
  Forall located pre ->
  location (user tweet) = None ->
  extract (Some a) (mode_of_call today c) 200 "extended" 10000 w =
  (Raise NoneType_plus_str,
   logged w (prologue (mode_of_call today c) 200 "extended")).
Proof.
  intros Hfetch Hpre Hloc.
  rewrite extract_run, Hfetch, comprehension_stream_of.
  destruct (apply_located (mode_of_call today c) pre Hpre) as (rows & -> & _).
  simpl. by rewrite (tuple_of_nowhere _ tweet Hloc).
Qed.

Ltac raise_call Hraise :=
  rewrite bind_run;
  let Hrun := fresh "Hrun" in
  match goal with
  | |- context [match ?run ?w with _ => _ end] =>
      pose proof (Hraise w) as Hrun;
      cbn [mode_of_call extract] in Hrun; rewrite Hrun
  end.

(** A row whose first call meets such an item raises. *)
Lemma node_row_raises_on_nowhere today nd a df' index c calls pre tweet rest :
  has_columns nd df' ->
  row_calls nd (row_key df' (loop_key_column nd) index) (row_key df' "type" index)
    = c :: calls ->
  fetched a (mode_of_call today c) 200 "extended" 10000 =
    stream_of pre (Item tweet rest) ->
  Forall located pre ->
  location (user tweet) = None ->
  forall acc w,
    exists e w', node_row today nd (Some a) df' index acc w = (Raise e, w').
Proof.
  intros [[keys Hkeys] Htype] Hcalls Hfetch Hpre Hloc acc w.
  pose proof (fun w => call_raises_on_nowhere a today c pre tweet rest w
                         Hfetch Hpre Hloc) as Hraise.
  pose proof (row_get_key df' _ keys index Hkeys) as Hkey.
  set (key := row_key df' (loop_key_column nd) index) in *.
  set (second := row_key df' "type" index) in *.
  destruct nd; cbn [node_row loop_key_column key_column] in *;
    unfold row_calls, specified_row_calls in Hcalls.
  - destruct (Htype eq_refl) as [types Htypes].
    pose proof (row_get_key df' _ types index Htypes) as Hsecond.
    fold second in Hsecond.
    unfold user_timelines_row.
    rewrite bind_run, Hkey. unfold lift at 1.
    destruct (notna key); [| discriminate]. injection Hcalls as <- _.
    rewrite bind_run. unfold lift at 1.
    rewrite bind_run, Hsecond. unfold lift at 1.
    raise_call Hraise. by eexists _, _.
  - unfold replies_to_users_row.
    rewrite bind_run, Hkey. unfold lift at 1.
    destruct (notna key); [| discriminate]. injection Hcalls as <- _.
    rewrite bind_run. unfold lift at 1.
    raise_call Hraise. by eexists _, _.
  - unfold search_users_row.
    rewrite bind_run, Hkey. unfold lift at 1.
    destruct (notna key); [| discriminate]. injection Hcalls as <- _.
    rewrite bind_run. unfold lift at 1.
    raise_call Hraise. by eexists _, _.
  - unfold hashtags_row.
    rewrite bind_run, Hkey. unfold lift at 1.
    destruct (notna key); [| discriminate]. injection Hcalls as <- _.
    rewrite bind_run. unfold lift at 1.
    raise_call Hraise. by eexists _, _.
  - unfold queries_row.
    rewrite bind_run, Hkey. unfold lift at 1.
    injection Hcalls as <- _.
    raise_call Hraise. by eexists _, _.
Qed.

(** No isolation for anything but Tweepy errors: if, for some row of the
    table, the first call of the row fetches an item whose author has no
    location, the node raises and no table is returned, whatever the
    other rows brought back. *)
Theorem node_fails_on_an_item_without_location tweepy today nd data params
    w df df' a index c calls pre tweet rest :
  heap w !! data = Some df ->
  loop_frame nd df = Ok df' ->
  has_columns nd df' ->
  fst (auth_from_params tweepy params w) = Ok (Some a) ->
  (index < nrows df')%nat ->
  row_calls nd (row_key df' (loop_key_column nd) index) (row_key df' "type" index)
    = c :: calls ->
  fetched a (mode_of_call today c) 200 "extended" 10000 =
    stream_of pre (Item tweet rest) ->
  Forall located pre ->
  location (user tweet) = None ->
  exists e, fst (run_node tweepy today nd data params w) = Raise e.
Proof.
  intros Hdf Hframe Hcols Hauth Hindex Hcalls Hfetch Hpre Hloc.
  destruct (node_reaches_loop tweepy today nd data params w df df' (Some a)
              Hdf Hframe Hauth) as (w1 & _ & _ & ->).
  unfold loop_and_table. rewrite bind_run.
  destruct (for_each_raises (node_row today nd (Some a) df') index (iterrows df'))
    with (acc := @nil record) (w := w1) as (e & w2 & ->).
  - unfold iterrows. apply in_seq. lia.
  - apply (node_row_raises_on_nowhere today nd a df' index c calls pre tweet rest);
      assumption.
  - by exists e.
Qed.

Lemma node_fails_on_an_item_without_location_witness :
  exists e,
    fst (run_node (Stub.tweepy_ok (Item Stub.hola (Item Stub.nowhere EndOfItems)))
           Stub.today Timelines 1%positive ∅ (Stub.world_of Stub.users))
    = Raise e.
Proof.
  apply (node_fails_on_an_item_without_location
           (Stub.tweepy_ok (Item Stub.hola (Item Stub.nowhere EndOfItems)))
           Stub.today Timelines 1%positive ∅ (Stub.world_of Stub.users)
           Stub.users Stub.users
           (mkAPI (fun _ => Item Stub.hola (Item Stub.nowhere EndOfItems)) true)
           0%nat (TimelineCall (CStr "alice") (CStr "customer")) []
           [Stub.hola] Stub.nowhere EndOfItems).
  - reflexivity.
  - reflexivity.
  - apply users_have_columns. by left.
  - reflexivity.
  - simpl. lia.
  - reflexivity.
  - reflexivity.
  - repeat constructor. by exists "Lima".
  - reflexivity.
Defined.

(** ** Tweepy errors stay inside *)

Lemma contains_ret {A} (a : A) : contains_Tweepy_errors (mret a : M A).
Proof. intros w msg. discriminate. Qed.

Lemma contains_emit ev : contains_Tweepy_errors (emit ev).
Proof. intros w msg. discriminate. Qed.

Lemma contains_print line : contains_Tweepy_errors (print line).
Proof. intros w msg. discriminate. Qed.

Lemma contains_deref l : contains_Tweepy_errors (deref l).
Proof. intros w msg. unfold deref. by destruct (heap w !! l). Qed.

Lemma contains_store l df : contains_Tweepy_errors (store l df).
Proof. intros w msg. discriminate. Qed.

Lemma contains_lift {A} (r : result A) :
  (forall msg, r <> Raise (TweepyException msg)) -> contains_Tweepy_errors (lift r).
Proof. intros Hr w msg. apply Hr. Qed.

Lemma contains_bind {A B} (m : M A) (f : A -> M B) :
  contains_Tweepy_errors m -> (forall a, contains_Tweepy_errors (f a)) ->
  contains_Tweepy_errors (m ≫= f).
Proof.
  intros Hm Hf w msg. specialize (Hm w msg). rewrite bind_run.
  destruct (m w) as [[a | e] w']; [apply Hf |].
  simpl in *. intros [= ->]. by apply Hm.
Qed.

(** The handler decides: whatever the body raises, a [try] whose
    handler lets no Tweepy error out lets none out. *)
Lemma contains_try {A} (body : M A) handler :
  (forall msg, contains_Tweepy_errors (handler msg)) ->
  contains_Tweepy_errors (try_except_TweepyException body handler).
Proof.
  intros Hh w msg. unfold try_except_TweepyException.
  destruct (body w) as [[a | []] w']; try discriminate.
  apply Hh.
Qed.

Lemma contains_for_each {A S} (body : A -> S -> M S) xs acc :
  (forall x acc, contains_Tweepy_errors (body x acc)) ->
  contains_Tweepy_errors (for_each body xs acc).
Proof.
  intros Hbody. revert acc.
  induction xs as [| x xs IH]; intros acc; simpl.
  - apply contains_ret.
  - apply contains_bind; [apply Hbody | apply IH].
Qed.

Lemma contains_if {A} (b : bool) (m1 m2 : M A) :
  contains_Tweepy_errors m1 -> contains_Tweepy_errors m2 ->
  contains_Tweepy_errors (if b then m1 else m2).
Proof. by destruct b. Qed.

Lemma row_get_raises_KeyError df index name msg :
  row_get df index name <> Raise (TweepyException msg).
Proof. unfold row_get, df_col. by destruct (assoc name (columns df)). Qed.

Lemma df_col_raises_KeyError {A} (df : DataFrame A) name msg :
  df_col df name <> Raise (TweepyException msg).
Proof. unfold df_col. by destruct (assoc name (columns df)). Qed.

Lemma new_DataFrame_raises_ValueError data names msg :
  new_DataFrame data names <> Raise (TweepyException msg).
Proof.
  unfold new_DataFrame.
  match goal with |- context [forallb ?f ?d] => by destruct (forallb f d) end.
Qed.

Lemma apply_cell_replace_raises_AttributeError series msg :
  apply (fun hashtag => cell_replace hashtag "#"%char "") series
  <> Raise (TweepyException msg).
Proof.
  induction series as [| c series IH]; simpl; [discriminate |].
  destruct c; simpl; try discriminate.
  destruct (apply _ series) as [text | e]; simpl; [discriminate | exact IH].
Qed.

Lemma contains_get_auth tweepy key secret token token_secret :
  contains_Tweepy_errors (get_auth tweepy key secret token token_secret).
Proof.
  unfold get_auth. apply contains_try. intros msg.
  repeat (apply contains_bind; [| intros ?]);
    first [apply contains_print | apply contains_ret].
Qed.

Lemma contains_extract api m count tweet_mode n :
  contains_Tweepy_errors (extract api m count tweet_mode n).
Proof.
  destruct m; cbn [extract];
    [ unfold extract_tweets_from_user_timeline
    | unfold extract_replies_to_user
    | unfold extract_tweets_from_search
    | unfold extract_tweets_from_hashtag ];
    (apply contains_bind; [apply contains_emit | intros _]);
    (apply contains_bind; [apply contains_print | intros _]);
    apply contains_try; intros msg;
    repeat (apply contains_bind; [| intros ?]);
    first [apply contains_print | apply contains_ret].
Qed.

(** No Tweepy error leaves [get_auth] or an extraction function,
    whatever tweepy and the remote API do: each catches them all. *)
Theorem no_Tweepy_error_leaves_the_functions tweepy key secret token
    token_secret api m count tweet_mode n w msg :
  fst (get_auth tweepy key secret token token_secret w)
    <> Raise (TweepyException msg) /\
  fst (extract api m count tweet_mode n w) <> Raise (TweepyException msg).
Proof.
  split; [apply contains_get_auth | apply contains_extract].
Qed.

Ltac contains_step today :=
  lazymatch goal with
  | |- contains_Tweepy_errors (mret _) => apply contains_ret
  | |- contains_Tweepy_errors (lift (row_get _ _ _)) =>
      apply contains_lift; intros ?; apply row_get_raises_KeyError
  | |- contains_Tweepy_errors (lift (df_col _ _)) =>
      apply contains_lift; intros ?; apply df_col_raises_KeyError
  | |- contains_Tweepy_errors (lift (new_DataFrame _ _)) =>
      apply contains_lift; intros ?; apply new_DataFrame_raises_ValueError
  | |- contains_Tweepy_errors (lift (apply _ _)) =>
      apply contains_lift; intros ?; apply apply_cell_replace_raises_AttributeError
  | |- contains_Tweepy_errors (print _) => apply contains_print
  | |- contains_Tweepy_errors (deref _) => apply contains_deref
  | |- contains_Tweepy_errors (store _ _) => apply contains_store
  | |- contains_Tweepy_errors (auth_from_params ?tw _) =>
      apply contains_get_auth
  | |- contains_Tweepy_errors
         (extract_tweets_from_user_timeline ?api ?sn ?ut ?c ?tm ?er ?ir ?n) =>
      apply (contains_extract api (Timeline sn ut er ir) c tm n)
  | |- contains_Tweepy_errors
         (extract_replies_to_user ?api ?u ?c ?tm ?l ?rt ?un ?n) =>
      apply (contains_extract api (Replies u l rt un) c tm n)
  | |- contains_Tweepy_errors
         (extract_tweets_from_search ?api ?q ?c ?tm ?l ?rt ?un ?n) =>
      apply (contains_extract api (Search q l rt un) c tm n)
  | |- contains_Tweepy_errors
         (extract_tweets_from_hashtag ?api ?h ?c ?tm ?l ?rt ?un ?n) =>
      apply (contains_extract api (Hashtag h l rt un) c tm n)
  | |- contains_Tweepy_errors (user_timelines_row _ _ _ _) =>
      unfold user_timelines_row
  | |- contains_Tweepy_errors (replies_to_users_row _ _ _ _ _) =>
      unfold replies_to_users_row
  | |- contains_Tweepy_errors (search_users_row _ _ _ _ _) =>
      unfold search_users_row
  | |- contains_Tweepy_errors (hashtags_row _ _ _ _ _) => unfold hashtags_row
  | |- contains_Tweepy_errors (queries_row _ _ _ _ _) => unfold queries_row
  | |- contains_Tweepy_errors (if _ then _ else _) => apply contains_if
  | |- contains_Tweepy_errors (for_each _ _ _) =>
      apply contains_for_each; intros ? ?
  | |- contains_Tweepy_errors (_ ≫= _) => apply contains_bind; [| intros ?]
  end.

(** A fetch error never aborts a batch: whatever tweepy, the remote API
    and the table are, no node raises a Tweepy error. *)
Theorem no_Tweepy_error_leaves_a_node tweepy today nd data params w msg :
  fst (run_node tweepy today nd data params w) <> Raise (TweepyException msg).
Proof.
  revert w msg. change (contains_Tweepy_errors (run_node tweepy today nd data params)).
  destruct nd; cbn [run_node];
    [ unfold extract_user_timelines
    | unfold extract_replies_to_users
    | unfold extract_search_users
    | unfold extract_tweets_from_hashtags
    | unfold extract_tweets_from_queries ];
    repeat contains_step today.
Qed.

(** ** The tables *)

(** Building the table never fails on the shape of the records: for
    every node, whenever its loop completes, each record gathered has
    one field per declared column and [pd.DataFrame] returns a table
    with the declared columns, in order, and one row per record. *)
Theorem node_tables_fit_their_columns today nd api df rows w :
  match for_each (node_row today nd api df) rows [] w with
  | (Ok acc, _) =>
      Forall (fun r => length r = length (node_columns nd)) acc /\
      exists table,
        new_DataFrame acc (node_columns nd) = Ok table /\
        map fst (columns table) = node_columns nd /\
        nrows table = length acc
  | (Raise _, _) => True
  end.
Proof. exact (node_loop_builds_a_table today nd api df rows w). Qed.

(** ** The success line of get_auth *)

(** [get_auth] prints its success line before it builds the handle: when
    [tweepy.API] is what raises the Tweepy error, the success line has
    already been printed, the error lines follow it, and [None] is
    returned. *)
Theorem get_auth_success_line_comes_first tweepy key secret token token_secret
    auth auth' msg w :
  tweepy_OAuthHandler tweepy key secret = Ok auth ->
  tweepy_set_access_token tweepy auth token token_secret = Ok auth' ->
  tweepy_API tweepy auth' true = Raise (TweepyException msg) ->
  get_auth tweepy key secret token token_secret w =
  (Ok None,
   logged w [Stdout "Successfully authenticated with the Twitter API";
             Stdout "Error authenticating with Twitter API";
             Stdout msg]).
Proof.
  intros H1 H2 H3. unfold get_auth. run_monad.
  rewrite H1. simpl. rewrite H2. simpl. rewrite H3. simpl.
  by rewrite !logged_logged.
Qed.

(** ** The queries of the replies and search modes *)

(** The replies mode searches for [to:] followed by the username and
    labels every record with the bare username; the search mode
    searches for the query as given and labels every record with it. *)
Theorem replies_and_search_query_and_key a key count tweet_mode language
    result_type until n w :
  (exists evs,
     trace (snd (extract_replies_to_user (Some a) (CStr key) count tweet_mode
                   language result_type until n w)) =
     trace w ++
     [Call (RepliesCall (CStr key) language);
      Stdout ("Extracting replies to username: " +:+ key);
      Cursor (SearchTweets (CStr ("to:" +:+ key)) language tweet_mode
                result_type count until)] ++ evs) /\
  (forall rows,
     fst (extract_replies_to_user (Some a) (CStr key) count tweet_mode
            language result_type until n w) = Ok (Some rows) ->
     Forall (fun r => head r = Some (VStr key)) rows) /\
  (exists evs,
     trace (snd (extract_tweets_from_search (Some a) (CStr key) count tweet_mode
                   language result_type until n w)) =
     trace w ++
     [Call (SearchCall (CStr key) language);
      Stdout ("Extracting search for: " +:+ key);
      Cursor (SearchTweets (CStr key) language tweet_mode
                result_type count until)] ++ evs) /\
  (forall rows,
     fst (extract_tweets_from_search (Some a) (CStr key) count tweet_mode
            language result_type until n w) = Ok (Some rows) ->
     Forall (fun r => head r = Some (VStr key)) rows).
Proof.
  pose proof (extract_run a (Replies (CStr key) language result_type until)
                count tweet_mode n w) as Hreplies.
  pose proof (extract_run a (Search (CStr key) language result_type until)
                count tweet_mode n w) as Hsearch.
  simpl in Hreplies, Hsearch.
  assert (forall m rows,
            mode_key m = VStr key ->
            fst (extract (Some a) m count tweet_mode n w) = Ok (Some rows) ->
            Forall (fun r => head r = Some (VStr key)) rows) as Hkey.
  { intros m rows Hm Hrows.
    destruct (extract_Ok_inv (Some a) m count tweet_mode n w rows Hrows)
      as (a' & ts & _ & _ & Hall).
    eapply Forall2_right; [exact Hall |].
    intros tweet r Hr. simpl in Hr.
    destruct m; simpl in Hm, Hr; unfold timeline_tuple, search_tuple in Hr;
      destruct (add_str _ _); try discriminate; injection Hr as <-;
      simpl; by rewrite <- Hm. }
  split; [| split; [| split]].
  - rewrite Hreplies.
    match goal with
    | |- context [match comprehension ?f ?s with _ => _ end] =>
        destruct (comprehension f s) as [rows | []]
    end; unfold prologue; simpl;
      first [ by exists (@nil event)
            | eexists; rewrite <- app_assoc; reflexivity ].
  - intros rows Hrows.
    exact (Hkey (Replies (CStr key) language result_type until) rows eq_refl Hrows).
  - rewrite Hsearch.
    match goal with
    | |- context [match comprehension ?f ?s with _ => _ end] =>
        destruct (comprehension f s) as [rows | []]
    end; unfold prologue; simpl;
      first [ by exists (@nil event)
            | eexists; rewrite <- app_assoc; reflexivity ].
  - intros rows Hrows.
    exact (Hkey (Search (CStr key) language result_type until) rows eq_refl Hrows).
Qed.

Lemma replies_and_search_query_and_key_witness :
  Forall (fun r => head r = Some (VStr "alice"))
    [[VStr "alice"; VStr "en"; VStr "1001"; VTime 1700000000;
      VStr "hola"; VStr "en"; VInt 3; VInt 4;
      VList [Entity "https://t.co/x"]; VList []; VList [];
      VStr "42"; VStr "bob"; VBool false; VInt 10; VInt 20; VStr "Lima"]].
Proof.
  apply (proj1 (proj2 (replies_and_search_query_and_key
                         (Stub.api_const (Item Stub.hola EndOfItems))
                         "alice" 200 "extended" "en" "mixed" Stub.today 10000
                         Stub.w0))).
  reflexivity.
Defined.

Lemma get_auth_success_line_comes_first_witness :
  get_auth (mkTweepy
              (fun key secret => Ok (mkOAuth key secret None None))
              (fun auth token secret =>
                 Ok (mkOAuth (consumer_key auth) (consumer_secret auth) token secret))
              (fun _ _ => Raise (TweepyException "no route to host")))
    (Some "key") (Some "secret") (Some "token") (Some "token secret") Stub.w0 =
  (Ok None,
   logged Stub.w0 [Stdout "Successfully authenticated with the Twitter API";
                   Stdout "Error authenticating with Twitter API";
                   Stdout "no route to host"]).
Proof.
  apply (get_auth_success_line_comes_first _ _ _ _ _
           (mkOAuth (Some "key") (Some "secret") None None)
           (mkOAuth (Some "key") (Some "secret") (Some "token") (Some "token secret"))
           "no route to host" Stub.w0); reflexivity.
Defined.

(** ** The hashtag node, tag by tag *)

Lemma flat_map_map {A B C} (g : B -> list C) (h : A -> B) l :
  flat_map g (map h l) = flat_map (fun x => g (h x)) l.
Proof. induction l as [| x l IH]; simpl; [reflexivity | by rewrite IH]. Qed.

(** Reading a column row by row gives the column. *)
Lemma flat_map_nth_seq {A B} (f : A -> list B) (l : list A) d :
  flat_map (fun index => f (nth index l d)) (seq 0 (length l)) = flat_map f l.
Proof.
  induction l as [| x l IH]; [reflexivity |].
  cbn [length seq flat_map nth]. f_equal.
  rewrite <- seq_shift, flat_map_map. exact IH.
Qed.

(** A tag without a marker is left as it is, and a marker in front
    makes no difference to what is left. *)
Lemma str_replace_without_marker tag :
  ~ In "#"%char (list_ascii_of_string tag) -> str_replace tag "#"%char "" = tag.
Proof.
  induction tag as [| c tag IH]; simpl; [reflexivity |].
  intros Hnot. destruct (Ascii.eqb c "#") eqn:Hc.
  - apply Ascii.eqb_eq in Hc. tauto.
  - rewrite IH; [reflexivity | tauto].
Qed.

Lemma str_replace_marked tag :
  str_replace ("#" +:+ tag) "#"%char "" = str_replace tag "#"%char "".
Proof. reflexivity. Qed.

Lemma row_key_text df tags index :
  row_key (with_text df tags) "text" index =
  nth index (map (fun tag => CStr (str_replace tag "#"%char "")) tags) CNaN.
Proof.
  unfold row_key, row_get, df_col, with_text, df_set_col. cbn [columns].
  by rewrite assoc_assoc_set.
Qed.

(** For a table of hashtags, marked or not, the hashtag node calls the
    hashtag extraction, whenever it returns, with each tag stripped of
    its markers, in [en] then in [es], row after row; so a tag given
    as [#sale] and one given as [sale] lead to the same calls. *)
Theorem hashtags_node_calls_by_tag tweepy today data params w df tags :
  heap w !! data = Some df ->
  df_col df "hashtag" = Ok (map CStr tags) ->
  nrows df = length tags ->
  match run_node tweepy today Hashtags data params w with
  | (Ok _, w') =>
      calls_of (trace w') =
      calls_of (trace w) ++
      flat_map (fun tag =>
                  [HashtagCall (CStr (str_replace tag "#"%char "")) "en";
                   HashtagCall (CStr (str_replace tag "#"%char "")) "es"])
               tags
  | (Raise _, _) => True
  end.
Proof.
  intros Hdf Hcol Hrows.
  assert (loop_frame Hashtags df = Ok (with_text df tags)) as Hframe.
  { simpl. rewrite Hcol. simpl. by rewrite apply_cell_replace_strings. }
  pose proof (node_calls_if_returned tweepy today Hashtags data params w df
                (with_text df tags) Hdf Hframe) as Hcalls.
  destruct (run_node tweepy today Hashtags data params w) as [[table | e] w'];
    [| exact I].
  rewrite Hcalls. f_equal.
  set (text := map (fun tag => CStr (str_replace tag "#"%char "")) tags).
  unfold loop_calls, iterrows.
  transitivity (flat_map (fun index =>
                            specified_row_calls Hashtags (nth index text CNaN) CNaN)
                         (seq 0 (length text))).
  - replace (nrows (with_text df tags)) with (length text)
      by (subst text; rewrite length_map; by symmetry).
    apply flat_map_ext. intros index. cbn [row_calls loop_key_column].
    rewrite (row_key_text df tags index). fold text.
    unfold specified_row_calls. by destruct (notna (nth index text CNaN)).
  - rewrite (flat_map_nth_seq (fun key => specified_row_calls Hashtags key CNaN)
               text CNaN).
    subst text. rewrite flat_map_map. reflexivity.
Qed.

Lemma hashtags_node_calls_by_tag_witness :
  calls_of (trace (snd (run_node (Stub.tweepy_ok EndOfItems) Stub.today Hashtags
                          1%positive ∅ (Stub.world_of Stub.tags)))) =
  [HashtagCall (CStr "sale") "en"; HashtagCall (CStr "sale") "es";
   HashtagCall (CStr "ab") "en"; HashtagCall (CStr "ab") "es"].
Proof.
  exact (hashtags_node_calls_by_tag (Stub.tweepy_ok EndOfItems) Stub.today
           1%positive ∅ (Stub.world_of Stub.tags) Stub.tags ["#sale"; "a#b"]
           eq_refl eq_refl eq_refl).
Defined.

(** ** A table without the key column *)

Lemma df_col_missing {A} (df : DataFrame A) name :
  assoc name (columns df) = None -> df_col df name = Raise (KeyError name).
Proof. intros H. unfold df_col. by rewrite H. Qed.

(** A row whose key column is not there raises [KeyError] before any
    call. *)
Lemma node_row_without_key_column today nd api df' index acc w :
  assoc (loop_key_column nd) (columns df') = None ->
  node_row today nd api df' index acc w =
  (Raise (KeyError (loop_key_column nd)), w).
Proof.
  intros Hmissing.
  assert (row_get df' index (loop_key_column nd)
          = Raise (KeyError (loop_key_column nd))) as Hkey.
  { unfold row_get. by rewrite (df_col_missing df' _ Hmissing). }
  destruct nd; cbn [node_row loop_key_column key_column] in *;
    unfold user_timelines_row, replies_to_users_row, search_users_row,
      hashtags_row, queries_row;
    rewrite bind_run, Hkey; reflexivity.
Qed.

(** A table that lacks the column a node reads its keys from makes the
    node raise [KeyError] with the name of the column, before any
    call. The hashtag node raises even for a table without rows; the
    others only once there is a row to read. *)
Theorem node_without_its_key_column tweepy today nd data params w df api :
  heap w !! data = Some df ->
  assoc (key_column nd) (columns df) = None ->
  fst (auth_from_params tweepy params w) = Ok api ->
  (nd = Hashtags \/ 0 < nrows df)%nat ->
  fst (run_node tweepy today nd data params w) = Raise (KeyError (key_column nd)) /\
  calls_of (trace (snd (run_node tweepy today nd data params w))) =
    calls_of (trace w).
Proof.
  intros Hdf Hmissing Hauth Hrows.
  assert (nd = Hashtags \/ nd <> Hashtags) as [-> | Hnd]
    by (destruct nd; (by left) || (by right)).
  - assert (loop_frame Hashtags df = Raise (KeyError "hashtag")) as Hframe.
    { simpl. by rewrite (df_col_missing df "hashtag" Hmissing). }
    destruct (node_stops_before_loop tweepy today Hashtags data params w df api _
                Hdf Hframe Hauth) as (Hrun & Hcalls & _).
    by split.
  - assert (loop_frame nd df = Ok df) as Hframe by (by destruct nd).
    assert (loop_key_column nd = key_column nd) as Hcolumn by (by destruct nd).
    destruct (node_reaches_loop tweepy today nd data params w df df api
                Hdf Hframe Hauth) as (w1 & _ & Hcalls1 & ->).
    destruct Hrows as [-> | Hrows]; [contradiction |].
    unfold loop_and_table, iterrows.
    destruct (nrows df) as [| k]; [lia |].
    cbn [seq for_each]. rewrite !bind_run.
    rewrite node_row_without_key_column by (by rewrite Hcolumn).
    cbn [fst snd]. by rewrite Hcolumn.
Qed.

Lemma node_without_its_key_column_witness :
  fst (run_node (Stub.tweepy_ok EndOfItems) Stub.today Queries 1%positive ∅
         (Stub.world_of Stub.users)) = Raise (KeyError "query") /\
  calls_of (trace (snd (run_node (Stub.tweepy_ok EndOfItems) Stub.today Queries
                          1%positive ∅ (Stub.world_of Stub.users)))) = [].
Proof.
  apply (node_without_its_key_column (Stub.tweepy_ok EndOfItems) Stub.today
           Queries 1%positive ∅ (Stub.world_of Stub.users) Stub.users
           (Some (mkAPI (fun _ => EndOfItems) true))).
  - reflexivity.
  - reflexivity.
  - reflexivity.
  - right. simpl. lia.
Defined.
